(** * Pipeline monitor: status aggregation and viewer fan-out

    A shallow embedding of [scripts/pipeline-monitor.py] (class
    [PipelineMonitor]) and the properties of its poll cycle: duration of a
    run, per-workflow and aggregate metrics, the dependency pull-request
    filter, the security-report lookup, and the websocket viewers.

    Conventions of the embedding:
    - Python [None] / JSON [null] for a string-valued field is [option string];
    - Python floats ([success_rate], [avg_duration]) are exact rationals [Q]:
      rounding of the float operations is not modelled;
    - a Python [dict] whose iteration order matters ([workflows]) is an
      association list in insertion order; the [set] of clients is a [gset];
    - a [try]/[except] that logs and carries on is a function that returns
      the state reached when the exception was raised. *)

From Stdlib Require Import ZArith QArith String Ascii List Sorted Lia.
From stdpp Require Import gmap strings list.

Open Scope string_scope.
Open Scope list_scope.
Open Scope Z_scope.

(** ** Values decoded from JSON *)

Local Unset Elimination Schemes.

Inductive json : Type :=
| JNull
| JBool (b : bool)
| JInt (z : Z)
| JStr (s : string)
| JList (l : list json)
| JDict (items : list (string * json)).

Local Set Elimination Schemes.

(** Exceptions that the monitor's handlers tell apart. *)
Inductive exn : Type :=
| AttributeError
| TypeError
| JSONDecodeError
| ConnectionClosed
| OtherError.

(** [d[k]] on the items of a dict (keys of a dict are distinct). *)
Fixpoint assoc {A : Type} (k : string) (items : list (string * A)) : option A :=
  match items with
  | [] => None
  | (k', v) :: rest => if String.eqb k k' then Some v else assoc k rest
  end.

(** [v.get(k, default)]: only a dict has [get]; on any other value the
    attribute lookup raises [AttributeError]. *)
Definition py_get (v : json) (k : string) (default : json) : json + exn :=
  match v with
  | JDict items =>
      match assoc k items with
      | Some x => inl x
      | None => inl default
      end
  | _ => inr AttributeError
  end.

(** Truth value of an optional string: [None] and [''] are false. *)
Definition truthy (v : option string) : bool :=
  match v with
  | None => false
  | Some s => negb (String.eqb s "")
  end.

(** ** Timestamps *)

(** [s.replace('Z', '+00:00')]: every occurrence is replaced. *)
Fixpoint replace_Z (s : string) : string :=
  match s with
  | EmptyString => EmptyString
  | String c rest =>
      if Ascii.eqb c "Z"%char
      then "+00:00" +:+ replace_Z rest
      else String c (replace_Z rest)
  end.

(** A [datetime]: the wall-clock reading in microseconds since
    0001-01-01T00:00:00, and the UTC offset in microseconds of an aware
    value ([None] for a naive one). *)
Record datetime : Type := mk_datetime {
  wall_us : Z;
  utcoffset_us : option Z
}.

(** [end - start] as a [timedelta] in microseconds. Two aware values are
    compared on the UTC scale, two naive ones on the wall clock, and mixing
    the two raises [TypeError]. *)
Definition datetime_sub (e s : datetime) : Z + exn :=
  match utcoffset_us e, utcoffset_us s with
  | Some oe, Some os => inl ((wall_us e - oe) - (wall_us s - os))
  | None, None => inl (wall_us e - wall_us s)
  | _, _ => inr TypeError
  end.

(** [int(td.total_seconds())]: [int] truncates toward zero. (The float
    between the two is exact for whole-second differences.) *)
Definition int_total_seconds (td_us : Z) : Z := Z.quot td_us 1000000.

Section Duration.

(** [datetime.fromisoformat] is library code; [None] stands for the
    [ValueError] it raises on a string it does not accept. *)
Variable fromisoformat : string -> option datetime.

(** [datetime.fromisoformat(t.replace('Z', '+00:00'))] when it returns. *)
Definition parse_timestamp (t : option string) : option datetime :=
  match t with
  | None => None
  | Some s => fromisoformat (replace_Z s)
  end.

(** [PipelineMonitor._calculate_duration]. A [None] argument has no
    [replace] (AttributeError); the bare [except] turns every exception
    into 0. *)
Definition _calculate_duration (start_time end_time : option string) : Z :=
  match start_time with
  | None => 0
  | Some s =>
      match fromisoformat (replace_Z s) with
      | None => 0
      | Some start =>
          match end_time with
          | None => 0
          | Some e =>
              match fromisoformat (replace_Z e) with
              | None => 0
              | Some end_ =>
                  match datetime_sub end_ start with
                  | inl td => int_total_seconds td
                  | inr _ => 0
                  end
              end
          end
      end
  end.

End Duration.

(** *** The timestamp format of the GitHub API

    The fragment of [datetime.fromisoformat] for
    [YYYY-MM-DD?HH:MM:SS] with an optional [+HH:MM] / [-HH:MM] offset, which
    is what the API sends once [Z] has been replaced. Shorter forms and
    fractional seconds are left to the general parser above. *)

Definition digit (c : ascii) : option Z :=
  let n := Z.of_N (N_of_ascii c) in
  if (48 <=? n) && (n <=? 57) then Some (n - 48) else None.

Fixpoint digits (cs : list ascii) (acc : Z) : option Z :=
  match cs with
  | [] => Some acc
  | c :: rest =>
      match digit c with
      | Some d => digits rest (10 * acc + d)
      | None => None
      end
  end.

Definition number (cs : list ascii) : option Z := digits cs 0.

Definition is_leap (y : Z) : bool :=
  (y mod 4 =? 0) && (negb (y mod 100 =? 0) || (y mod 400 =? 0)).

Definition days_in_month (y m : Z) : Z :=
  if m =? 2 then (if is_leap y then 29 else 28)
  else if (m =? 4) || (m =? 6) || (m =? 9) || (m =? 11) then 30
  else 31.

Definition days_before_year (y : Z) : Z :=
  let p := y - 1 in p * 365 + p / 4 - p / 100 + p / 400.

Fixpoint days_before_month (y : Z) (m : nat) : Z :=
  match m with
  | O => 0
  | S k => days_before_month y k + days_in_month y (Z.of_nat (S k))
  end.

(** [date.toordinal() - 1]. *)
Definition days_since_origin (y m d : Z) : Z :=
  days_before_year y + days_before_month y (Z.to_nat (m - 1)) + (d - 1).

Definition parse_date (cs : list ascii) : option Z :=
  match cs with
  | [y1; y2; y3; y4; s1; m1; m2; s2; d1; d2] =>
      match number [y1; y2; y3; y4], number [m1; m2], number [d1; d2] with
      | Some y, Some m, Some d =>
          if Ascii.eqb s1 "-" && Ascii.eqb s2 "-"
             && (1 <=? y) && (1 <=? m) && (m <=? 12)
             && (1 <=? d) && (d <=? days_in_month y m)
          then Some (days_since_origin y m d)
          else None
      | _, _, _ => None
      end
  | _ => None
  end.

Definition parse_hms (cs : list ascii) : option Z :=
  match cs with
  | [h1; h2; s1; m1; m2; s2; c1; c2] =>
      match number [h1; h2], number [m1; m2], number [c1; c2] with
      | Some h, Some m, Some s =>
          if Ascii.eqb s1 ":" && Ascii.eqb s2 ":"
             && (h <? 24) && (m <? 60) && (s <? 60)
          then Some (h * 3600 + m * 60 + s)
          else None
      | _, _, _ => None
      end
  | _ => None
  end.

Definition parse_offset (cs : list ascii) : option (option Z) :=
  match cs with
  | [] => Some None
  | [sg; h1; h2; s1; m1; m2] =>
      match number [h1; h2], number [m1; m2] with
      | Some h, Some m =>
          if Ascii.eqb s1 ":" && (h <? 24) && (m <? 60)
          then
            if Ascii.eqb sg "+" then Some (Some ((h * 3600 + m * 60) * 1000000))
            else if Ascii.eqb sg "-" then Some (Some (- ((h * 3600 + m * 60) * 1000000)))
            else None
          else None
      | _, _ => None
      end
  | _ => None
  end.

Definition fromisoformat_seconds (s : string) : option datetime :=
  let cs := list_ascii_of_string s in
  match parse_date (firstn 10 cs),
        parse_hms (firstn 8 (skipn 11 cs)),
        parse_offset (skipn 19 cs) with
  | Some days, Some secs, Some off =>
      if (19 <=? length cs)%nat
      then Some (mk_datetime ((days * 86400 + secs) * 1000000) off)
      else None
  | _, _, _ => None
  end.

(** ** The status document *)

(** A run as the API reports it: an element of [data['workflow_runs']]. *)
Module ApiRun.
Record t : Type := mk {
  name : string;
  id : Z;
  status : option string;
  conclusion : option string;
  created_at : option string;
  updated_at : option string
}.
End ApiRun.

(** An element of [recent_runs]. *)
Module Run.
Record t : Type := mk {
  id : Z;
  status : option string;
  conclusion : option string;
  created_at : option string;
  updated_at : option string;
  duration : Z
}.
End Run.

(** A value of [workflow_status]. *)
Module Workflow.
Record t : Type := mk {
  latest_run : ApiRun.t;
  recent_runs : list Run.t;
  success_rate : Q;
  avg_duration : Q
}.
Definition set_recent_runs (v : list Run.t) (w : t) : t :=
  mk (latest_run w) v (success_rate w) (avg_duration w).
Definition set_success_rate (v : Q) (w : t) : t :=
  mk (latest_run w) (recent_runs w) v (avg_duration w).
Definition set_avg_duration (v : Q) (w : t) : t :=
  mk (latest_run w) (recent_runs w) (success_rate w) v.
End Workflow.

(** [pipeline_status['metrics']]. *)
Module Metrics.
Record t : Type := mk {
  total_runs : Z;
  success_rate : Q;
  avg_duration : Q;
  last_success : option string;
  last_failure : option string
}.
Definition set_total_runs (v : Z) (m : t) : t :=
  mk v (success_rate m) (avg_duration m) (last_success m) (last_failure m).
Definition set_success_rate (v : Q) (m : t) : t :=
  mk (total_runs m) v (avg_duration m) (last_success m) (last_failure m).
Definition set_avg_duration (v : Q) (m : t) : t :=
  mk (total_runs m) (success_rate m) v (last_success m) (last_failure m).
Definition set_last_success (v : option string) (m : t) : t :=
  mk (total_runs m) (success_rate m) (avg_duration m) v (last_failure m).
Definition set_last_failure (v : option string) (m : t) : t :=
  mk (total_runs m) (success_rate m) (avg_duration m) (last_success m) v.
(** The value [__init__] gives it. *)
Definition init : t := mk 0 0%Q 0%Q None None.
End Metrics.

(** A pull request as the API reports it, and an element of
    [dependabot_prs]. *)
Module ApiPull.
Record user : Type := mk_user { login : string }.
Record label : Type := mk_label { label_name : string }.
Record t : Type := mk {
  number : Z;
  title : string;
  created_at : option string;
  updated_at : option string;
  state : string;
  html_url : string;
  mergeable : option bool;
  labels : list label;
  user_ : user
}.
End ApiPull.

Module Pull.
Record t : Type := mk {
  number : Z;
  title : string;
  created_at : option string;
  updated_at : option string;
  state : string;
  url : string;
  mergeable : option bool;
  labels : list string
}.
End Pull.

(** [self.pipeline_status]. *)
Record pipeline_status : Type := mk_status {
  last_update : option string;
  workflows : list (string * Workflow.t);
  dependabot_prs : list Pull.t;
  security_status : list (string * json);
  metrics : Metrics.t
}.

Definition set_workflows (v : list (string * Workflow.t)) (st : pipeline_status) :=
  mk_status (last_update st) v (dependabot_prs st) (security_status st) (metrics st).
Definition set_dependabot_prs (v : list Pull.t) (st : pipeline_status) :=
  mk_status (last_update st) (workflows st) v (security_status st) (metrics st).
Definition set_security_status (v : list (string * json)) (st : pipeline_status) :=
  mk_status (last_update st) (workflows st) (dependabot_prs st) v (metrics st).
Definition set_metrics (v : Metrics.t) (st : pipeline_status) :=
  mk_status (last_update st) (workflows st) (dependabot_prs st) (security_status st) v.
Definition set_last_update (v : option string) (st : pipeline_status) :=
  mk_status v (workflows st) (dependabot_prs st) (security_status st) (metrics st).

(** The document [__init__] builds. *)
Definition initial_status : pipeline_status :=
  mk_status None [] [] [] Metrics.init.

(** ** Configuration and HTTP *)

Record config : Type := mk_config {
  github_token : option string;
  github_repo : list string
}.

(** The guard [not self.github_token or len(self.github_repo) != 2],
    negated. *)
Definition configured (cfg : config) : bool :=
  truthy (github_token cfg) && (length (github_repo cfg) =? 2)%nat.

(** What [session.get] ends in: a response with its status and decoded body,
    or an exception on the way (connection, decoding). *)
Inductive response (A : Type) : Type :=
| Http (status : Z) (body : A)
| Failed.
Arguments Http {A} status body.
Arguments Failed {A}.

(** ** Workflow runs *)

(** [r['conclusion'] == c]. *)
Definition conclusion_is (c : string) (v : option string) : bool :=
  match v with
  | Some s => String.eqb s c
  | None => false
  end.

Definition is_success (r : Run.t) : bool := conclusion_is "success" (Run.conclusion r).
Definition is_completed (r : Run.t) : bool := 0 <? Run.duration r.

(** [sum(r['duration'] for r in runs)]. *)
Definition sum_duration (runs : list Run.t) : Z :=
  fold_right (fun r acc => Run.duration r + acc) 0 runs.

Definition Qnat (n : nat) : Q := inject_Z (Z.of_nat n).

(** [successful / len(runs) * 100]. *)
Definition success_rate_of (runs : list Run.t) : Q :=
  (Qnat (length (filter is_success runs)) / Qnat (length runs) * 100)%Q.

(** [sum(durations) / len(completed_runs)]. *)
Definition avg_duration_of (completed_runs : list Run.t) : Q :=
  (inject_Z (sum_duration completed_runs) / Qnat (length completed_runs))%Q.

(** [d[k] = v]: replaces the value of a present key in place, appends a new
    key at the end. *)
Fixpoint dict_set {A : Type} (k : string) (v : A) (d : list (string * A)) : list (string * A) :=
  match d with
  | [] => [(k, v)]
  | (k', v') :: rest =>
      if String.eqb k k' then (k, v) :: rest else (k', v') :: dict_set k v rest
  end.

Section Workflows.

Variable fromisoformat : string -> option datetime.

Definition run_summary (run : ApiRun.t) : Run.t :=
  Run.mk (ApiRun.id run) (ApiRun.status run) (ApiRun.conclusion run)
         (ApiRun.created_at run) (ApiRun.updated_at run)
         (_calculate_duration fromisoformat (ApiRun.created_at run) (ApiRun.updated_at run)).

(** One turn of the grouping loop [for run in recent_runs]. *)
Definition group_step (workflow_status : list (string * Workflow.t)) (run : ApiRun.t)
  : list (string * Workflow.t) :=
  let workflow_name := ApiRun.name run in
  let entry :=
    match assoc workflow_name workflow_status with
    | Some w => w
    | None => Workflow.mk run [] 0%Q 0%Q
    end in
  dict_set workflow_name
    (Workflow.set_recent_runs (Workflow.recent_runs entry ++ [run_summary run]) entry)
    workflow_status.

Definition group_runs (recent_runs : list ApiRun.t) : list (string * Workflow.t) :=
  fold_left group_step recent_runs [].

(** The body of [for workflow in workflow_status.values()]. *)
Definition workflow_metrics (workflow : Workflow.t) : Workflow.t :=
  let runs := Workflow.recent_runs workflow in
  match runs with
  | [] => workflow
  | _ :: _ =>
      let w1 := Workflow.set_success_rate (success_rate_of runs) workflow in
      let completed_runs := filter is_completed runs in
      match completed_runs with
      | [] => w1
      | _ :: _ => Workflow.set_avg_duration (avg_duration_of completed_runs) w1
      end
  end.

(** [PipelineMonitor.update_workflow_status]; the body of a 200 response is
    [data.get('workflow_runs', [])]. *)
Definition update_workflow_status (cfg : config) (resp : response (list ApiRun.t))
    (st : pipeline_status) : pipeline_status :=
  if configured cfg then
    match resp with
    | Http status workflow_runs =>
        if status =? 200 then
          let recent_runs := firstn 10 workflow_runs in
          let workflow_status := group_runs recent_runs in
          set_workflows (map (fun kv => (fst kv, workflow_metrics (snd kv))) workflow_status) st
        else st
    | Failed => st
    end
  else st.

End Workflows.

(** ** Dependency pull requests *)

Definition is_dependabot (pr : ApiPull.t) : bool :=
  String.eqb (ApiPull.login (ApiPull.user_ pr)) "dependabot[bot]".

Definition pull_summary (pr : ApiPull.t) : Pull.t :=
  Pull.mk (ApiPull.number pr) (ApiPull.title pr) (ApiPull.created_at pr)
          (ApiPull.updated_at pr) (ApiPull.state pr) (ApiPull.html_url pr)
          (ApiPull.mergeable pr) (map ApiPull.label_name (ApiPull.labels pr)).

(** The loop [for pr in data] with its [append]. *)
Fixpoint collect_dependabot (data : list ApiPull.t) (dependabot_prs : list Pull.t)
  : list Pull.t :=
  match data with
  | [] => dependabot_prs
  | pr :: rest =>
      collect_dependabot rest
        (if is_dependabot pr then dependabot_prs ++ [pull_summary pr] else dependabot_prs)
  end.

(** [PipelineMonitor.update_dependabot_status]. *)
Definition update_dependabot_status (cfg : config) (resp : response (list ApiPull.t))
    (st : pipeline_status) : pipeline_status :=
  if configured cfg then
    match resp with
    | Http status data =>
        if status =? 200 then set_dependabot_prs (collect_dependabot data []) st else st
    | Failed => st
    end
  else st.

(** ** Security reports *)

(** Exceptions inside a [try] block: the error monad on [A + exn]. *)
Definition bind {A B : Type} (x : A + exn) (f : A -> B + exn) : B + exn :=
  match x with
  | inl a => f a
  | inr e => inr e
  end.

Notation "'let*' x ':=' e 'in' k" := (bind e (fun x => k))
  (at level 10, x name, e at level 100, k at level 200).

(** An entry of the reports directory: its name, its [st_mtime], and what
    [json.load] gives on it ([None]: it raises). *)
Record report_file : Type := mk_report {
  file_name : string;
  st_mtime : Z;
  loaded : option json
}.

Definition ends_with (suffix s : string) : bool :=
  let n := String.length s in
  let k := String.length suffix in
  (k <=? n)%nat && String.eqb (substring (n - k) k s) suffix.

(** The glob pattern [security-report-*.json]. *)
Definition glob_match (fname : string) : bool :=
  String.prefix "security-report-" fname
  && ends_with ".json" fname
  && (String.length "security-report-" + String.length ".json" <=? String.length fname)%nat.

(** [max(..., key=lambda p: p.stat().st_mtime)] over [best :: rest]: the
    first entry of greatest key. *)
Fixpoint max_by_mtime (best : report_file) (rest : list report_file) : report_file :=
  match rest with
  | [] => best
  | f :: rest' => max_by_mtime (if st_mtime best <? st_mtime f then f else best) rest'
  end.

(** The dict built from the latest report. *)
Definition security_summary (path : string) (security_data : json)
  : list (string * json) + exn :=
  let* last_scan := py_get security_data "timestamp" JNull in
  let* summary1 := py_get security_data "summary" (JDict []) in
  let* total := py_get summary1 "total_vulnerabilities" (JInt 0) in
  let* summary2 := py_get security_data "summary" (JDict []) in
  let* status := py_get summary2 "status" (JStr "UNKNOWN") in
  inl [("last_scan", last_scan);
       ("total_vulnerabilities", total);
       ("status", status);
       ("report_file", JStr path)].

Definition no_scan : list (string * json) :=
  [("last_scan", JNull); ("status", JStr "NO_SCAN")].

(** [PipelineMonitor.update_security_status]. [reports_dir] is the string
    of the directory's path, [listing] its entries when it exists. *)
Definition update_security_status (reports_dir : string)
    (listing : option (list report_file)) (st : pipeline_status) : pipeline_status :=
  match listing with
  | Some entries =>
      let json_reports := filter (fun f => glob_match (file_name f)) entries in
      match json_reports with
      | first :: others =>
          let latest_report := max_by_mtime first others in
          match loaded latest_report with
          | Some security_data =>
              match security_summary (reports_dir +:+ "/" +:+ file_name latest_report)
                                     security_data with
              | inl summary => set_security_status summary st
              | inr _ => st
              end
          | None => st
          end
      | [] => set_security_status no_scan st
      end
  | None => st
  end.

(** ** Metrics rollup *)

(** [<] on the sort keys; the sort never reaches it with a [None]. *)
Definition key_lt (a b : option string) : bool :=
  match a, b with
  | Some x, Some y => String.ltb x y
  | _, _ => false
  end.

(** Stable insertion into a list in descending key order: [x] stood in
    front of every element of [l]. *)
Fixpoint insert_desc (x : Run.t) (l : list Run.t) : list Run.t :=
  match l with
  | [] => [x]
  | y :: l' =>
      if key_lt (Run.updated_at x) (Run.updated_at y)
      then y :: insert_desc x l'
      else x :: l
  end.

Fixpoint sort_desc (l : list Run.t) : list Run.t :=
  match l with
  | [] => []
  | x :: l' => insert_desc x (sort_desc l')
  end.

Definition is_None {A : Type} (o : option A) : bool :=
  match o with
  | None => true
  | Some _ => false
  end.

(** [sorted(all_runs, key=lambda r: r['updated_at'], reverse=True)]: the
    sort is stable; with two or more runs every key is compared, and
    comparing [None] raises [TypeError]. *)
Definition sorted_by_updated_at (all_runs : list Run.t) : list Run.t + exn :=
  if (2 <=? length all_runs)%nat && existsb (fun r => is_None (Run.updated_at r)) all_runs
  then inr TypeError
  else inl (sort_desc all_runs).

Definition is_failure (r : Run.t) : bool :=
  conclusion_is "failure" (Run.conclusion r) || conclusion_is "cancelled" (Run.conclusion r).

(** One turn of [for run in sorted_runs]. *)
Definition scan_step (m : Metrics.t) (run : Run.t) : Metrics.t :=
  if is_success run && negb (truthy (Metrics.last_success m)) then
    Metrics.set_last_success (Run.updated_at run) m
  else if is_failure run && negb (truthy (Metrics.last_failure m)) then
    Metrics.set_last_failure (Run.updated_at run) m
  else m.

(** [all_runs]: the runs of every workflow, in the order of the dict. *)
Definition flatten_runs (wfs : list (string * Workflow.t)) : list Run.t :=
  flat_map (fun kv => Workflow.recent_runs (snd kv)) wfs.

(** [PipelineMonitor.update_metrics]. The assignments made before the sort
    raises stay in place. *)
Definition update_metrics (st : pipeline_status) : pipeline_status :=
  match workflows st with
  | [] => st
  | _ :: _ =>
      let all_runs := flatten_runs (workflows st) in
      match all_runs with
      | [] => st
      | _ :: _ =>
          let m1 := Metrics.set_success_rate (success_rate_of all_runs) (metrics st) in
          let completed_runs := filter is_completed all_runs in
          let m2 :=
            match completed_runs with
            | [] => m1
            | _ :: _ => Metrics.set_avg_duration (avg_duration_of completed_runs) m1
            end in
          match sorted_by_updated_at all_runs with
          | inl sorted_runs =>
              let m3 := fold_left scan_step sorted_runs m2 in
              set_metrics (Metrics.set_total_runs (Z.of_nat (length all_runs)) m3) st
          | inr _ => set_metrics m2 st
          end
      end
  end.

(** ** One poll cycle: the four updates of [monitoring_loop] *)

Record poll_inputs : Type := mk_inputs {
  runs_response : response (list ApiRun.t);
  pulls_response : response (list ApiPull.t);
  reports_listing : option (list report_file)
}.

Definition poll_cycle (fromisoformat : string -> option datetime) (cfg : config)
    (reports_dir : string) (inp : poll_inputs) (st : pipeline_status) : pipeline_status :=
  let st1 := update_workflow_status fromisoformat cfg (runs_response inp) st in
  let st2 := update_dependabot_status cfg (pulls_response inp) st1 in
  let st3 := update_security_status reports_dir (reports_listing inp) st2 in
  update_metrics st3.

(** ** Viewers *)

(** What the server sends: [json.dumps] of a dict with a [type] and, for the
    two status messages, the document as [data]. *)
Inductive server_msg : Type :=
| InitialStatus (data : pipeline_status)
| StatusUpdate (data : pipeline_status)
| ErrorMsg (message : string)
| Pong.

(** A websocket: [send] succeeds on an open connection, raises
    [ConnectionClosed] on a closed one and some other exception on a broken
    transport. [delivered] is what the viewer has been sent so far. *)
Inductive conn_state : Type := Open | Closed | Broken.

Record connection : Type := mk_conn {
  state : conn_state;
  delivered : list server_msg
}.

Abbreviation client := nat.

(** The monitor with its viewers: [self.pipeline_status], [self.clients],
    and the connection behind each websocket object. *)
Record server : Type := mk_server {
  status : pipeline_status;
  clients : gset nat;
  net : gmap nat connection
}.

(** [await websocket.send(message)]. *)
Definition send (ws : client) (message : server_msg) (n : gmap nat connection)
  : gmap nat connection + exn :=
  match n !! ws with
  | Some c =>
      match state c with
      | Open => inl (<[ws := mk_conn Open (delivered c ++ [message])]> n)
      | Closed => inr ConnectionClosed
      | Broken => inr OtherError
      end
  | None => inr ConnectionClosed
  end.



(** [message_type == s]. *)
Definition json_eq_str (v : json) (s : string) : bool :=
  match v with
  | JStr x => String.eqb x s
  | _ => false
  end.

(** [PipelineMonitor.handle_client_message]. *)
Definition handle_client_message (ws : client) (data : json) (σ : server)
  : (unit + exn) * server :=
  match py_get data "type" JNull with
  | inr e => (inr e, σ)
  | inl message_type =>
      if json_eq_str message_type "ping" then
        match send ws Pong (net σ) with
        | inl n' => (inl tt, mk_server (status σ) (clients σ) n')
        | inr e => (inr e, σ)
        end
      else if json_eq_str message_type "request_status" then
        match send ws (StatusUpdate (status σ)) (net σ) with
        | inl n' => (inl tt, mk_server (status σ) (clients σ) n')
        | inr e => (inr e, σ)
        end
      else (inl tt, σ)
  end.

(** The body of [async for message in websocket]; [loads] is what
    [json.loads(message)] does: the decoded value or the exception. Only
    [JSONDecodeError] is caught here. *)
Definition on_message (ws : client) (loads : json + exn) (σ : server)
  : (unit + exn) * server :=
  match loads with
  | inl data => handle_client_message ws data σ
  | inr JSONDecodeError =>
      match send ws (ErrorMsg "Invalid JSON") (net σ) with
      | inl n' => (inl tt, mk_server (status σ) (clients σ) n')
      | inr e => (inr e, σ)
      end
  | inr e => (inr e, σ)
  end.

(** The loop over the inbound messages: it goes on while the body returns,
    and an exception leaves it. *)
Fixpoint receive_loop (ws : client) (inbound : list (json + exn)) (σ : server)
  : (unit + exn) * server :=
  match inbound with
  | [] => (inl tt, σ)
  | m :: rest =>
      match on_message ws m σ with
      | (inl _, σ') => receive_loop ws rest σ'
      | (inr e, σ') => (inr e, σ')
      end
  end.

(** When the handler returns or raises, the websockets server closes the
    connection. *)
Definition close_connection (ws : client) (n : gmap nat connection) : gmap nat connection :=
  match n !! ws with
  | Some c => <[ws := mk_conn Closed (delivered c)]> n
  | None => n
  end.

(** [handle_client] for a viewer that sends [inbound] and then goes away:
    the result is the exception that escapes the handler, if any.
    [except ConnectionClosed: pass] swallows that one; [finally] removes the
    client in every case. *)
Definition handle_client (ws : client) (inbound : list (json + exn)) (σ : server)
  : option exn * server :=
  let σ0 := mk_server (status σ) ({[ws]} ∪ clients σ) (net σ) in
  let '(r, σ1) :=
    match send ws (InitialStatus (status σ0)) (net σ0) with
    | inl n' => receive_loop ws inbound (mk_server (status σ0) (clients σ0) n')
    | inr e => (inr e, σ0)
    end in
  let escaped :=
    match r with
    | inl _ => None
    | inr ConnectionClosed => None
    | inr e => Some e
    end in
  (escaped, mk_server (status σ1) (clients σ1 ∖ {[ws]}) (close_connection ws (net σ1))).

(** ** Configuration from the environment *)

(** [s.split(sep)] for a one-character separator: every occurrence splits,
    and empty pieces are kept. *)
Fixpoint split_on (sep : ascii) (s : string) : list string :=
  match s with
  | EmptyString => [EmptyString]
  | String c rest =>
      if Ascii.eqb c sep then EmptyString :: split_on sep rest
      else
        match split_on sep rest with
        | [] => [String c EmptyString]
        | w :: ws => String c w :: ws
        end
  end.

(** The two environment lookups of [__init__]:
    [os.getenv('GITHUB_TOKEN')] and
    [os.getenv('GITHUB_REPOSITORY', '').split('/')]. *)
Definition init_config (GITHUB_TOKEN GITHUB_REPOSITORY : option string) : config :=
  mk_config GITHUB_TOKEN (split_on "/" (default "" GITHUB_REPOSITORY)).

Fixpoint count_char (c : ascii) (s : string) : nat :=
  match s with
  | EmptyString => O
  | String c' rest => (if Ascii.eqb c' c then 1 else 0) + count_char c rest
  end.

(** ** Shutdown, snapshot and the monitoring loop *)

(** [await client.close()]: an open connection is closed, a closed one
    stays closed, and on a broken transport the call raises. *)
Definition close (ws : client) (n : gmap nat connection) : gmap nat connection + exn :=
  match n !! ws with
  | Some c =>
      match state c with
      | Broken => inr OtherError
      | _ => inl (<[ws := mk_conn Closed (delivered c)]> n)
      end
  | None => inr ConnectionClosed
  end.

(** [PipelineMonitor.shutdown], as to the connections: the loop runs over
    the copy of [self.clients] taken when it starts, and the bare [except]
    swallows what [close] raises. The function does not write the registry:
    a viewer leaves it in the [finally] of its own handler, which the
    closing of its connection brings to an end. *)
Definition shutdown (σ : server) : gmap nat connection :=
  foldl (fun n c => match close c n with
                    | inl n' => n'
                    | inr _ => n
                    end)
        (net σ) (elements (clients σ)).



(** The documents the monitor can hold: the initial one, and what poll
    cycles and time stamps make of it. *)
Inductive reachable (fromisoformat : string -> option datetime) (cfg : config)
    (reports_dir : string) : pipeline_status -> Prop :=
| reachable_init : reachable fromisoformat cfg reports_dir initial_status
| reachable_cycle (st : pipeline_status) (inp : poll_inputs) :
    reachable fromisoformat cfg reports_dir st ->
    reachable fromisoformat cfg reports_dir (poll_cycle fromisoformat cfg reports_dir inp st)
| reachable_stamp (st : pipeline_status) (now : string) :
    reachable fromisoformat cfg reports_dir st ->
    reachable fromisoformat cfg reports_dir (set_last_update (Some now) st).

(** What the handler sends back for one inbound message that does not make
    it raise: undecodable text, or a JSON object. *)
Definition reply_to (st : pipeline_status) (loads : json + exn) : list server_msg :=
  match loads with
  | inr _ => [ErrorMsg "Invalid JSON"]
  | inl data =>
      match py_get data "type" JNull with
      | inl message_type =>
          if json_eq_str message_type "ping" then [Pong]
          else if json_eq_str message_type "request_status" then [StatusUpdate st]
          else []
      | inr _ => []
      end
  end.

(** The inbound messages of a session that the handler survives. *)
Definition survivable (loads : json + exn) : Prop :=
  loads = inr JSONDecodeError \/ exists items, loads = inl (JDict items).

(** ** The dashboard page: the client's reconnect schedule and indicators *)

Module Dashboard.

(** The fields of the page's [PipelineMonitor] class that steer the
    reconnects (numbers are doubles; all values here are integers below
    2^53, and a product beyond the cap yields the cap). *)
Record t : Type := mk {
  reconnectDelay : Z;
  maxReconnectDelay : Z;
  reconnectAttempts : Z
}.

Definition constructor : t := mk 1000 30000 0.

(** The part of [ws.onopen] that resets the schedule. *)
Definition onopen (c : t) : t := mk 1000 (maxReconnectDelay c) 0.

(** [scheduleReconnect]: the delay handed to [setTimeout], and the object
    afterwards. *)
Definition scheduleReconnect (c : t) : Z * t :=
  let attempts := reconnectAttempts c + 1 in
  (Z.min (reconnectDelay c * 2 ^ attempts) (maxReconnectDelay c),
   mk (reconnectDelay c) (maxReconnectDelay c) attempts).

(** [k] closes in a row without an [onopen] in between. *)
Fixpoint failures (k : nat) (c : t) : t :=
  match k with
  | O => c
  | S k' => snd (scheduleReconnect (failures k' c))
  end.

(** The class of the indicator and the text shown for
    [data.security_status] in [updateDashboard]. *)
Definition security_indicator (security : list (string * json)) : string * string :=
  let status_is (s : string) :=
    match assoc "status" security with
    | Some v => json_eq_str v s
    | None => false
    end in
  if status_is "CLEAN" then ("status-indicator status-success", "Clean")
  else if status_is "VULNERABILITIES_FOUND" then ("status-indicator status-failure", "Issues Found")
  else ("status-indicator status-unknown", "Unknown").

End Dashboard.

(** ** Notions used in the statements *)

(** A workflow as the grouping loop leaves it: it has a run, and its two
    derived fields still hold the initial zeros. *)
Definition grouped (w : Workflow.t) : Prop :=
  Workflow.recent_runs w <> [] /\
  Workflow.success_rate w = 0%Q /\ Workflow.avg_duration w = 0%Q.

(** A workflow whose derived fields are those its own runs give: the rate
    of successes, and the mean duration of its completed runs (0 when it
    has none). *)
Definition derived_from_runs (w : Workflow.t) : Prop :=
  Workflow.recent_runs w <> [] /\
  Workflow.success_rate w = success_rate_of (Workflow.recent_runs w) /\
  Workflow.avg_duration w =
    match filter is_completed (Workflow.recent_runs w) with
    | [] => 0%Q
    | _ :: _ => avg_duration_of (filter is_completed (Workflow.recent_runs w))
    end.

(** The fixtures of the examples: a configured monitor, and a run of a
    workflow with its conclusion and its two timestamps. *)
Definition example_config : config := mk_config (Some "token") ["owner"; "repo"].

Definition example_run (name : string) (id : Z) (conclusion : option string)
    (created_at updated_at : string) : ApiRun.t :=
  ApiRun.mk name id (Some "completed") conclusion (Some created_at) (Some updated_at).

Definition example_cycle (runs : list ApiRun.t) (st : pipeline_status) : pipeline_status :=
  poll_cycle fromisoformat_seconds example_config "docs/security-reports/combined"
    (mk_inputs (Http 200 runs) Failed None) st.

(** [send] to this client would succeed: it has an open connection. *)
Definition is_open (n : gmap nat connection) (c : nat) : bool :=
  match n !! c with
  | Some conn =>
      match state conn with
      | Open => true
      | _ => false
      end
  | None => false
  end.

(** The reading of the rollup that scans the runs as they are held: the
    [updated_at] of the first run of the flattened group order that
    satisfies [p]. *)
Definition first_in_group_order (p : Run.t -> bool) (st : pipeline_status)
  : option string :=
  match head (filter p (flatten_runs (workflows st))) with
  | Some r => Run.updated_at r
  | None => None
  end.

(** [a] may stand before [b] in descending order: its key is not smaller. *)
Definition desc (a b : Run.t) : Prop :=
  key_lt (Run.updated_at a) (Run.updated_at b) = false.

Definition has_key (r : Run.t) : Prop := is_None (Run.updated_at r) = false.

(** Once a run with a false key ([None] or ['']) is met, every later run
    has that same key. *)
Definition settled (a b : Run.t) : Prop :=
  truthy (Run.updated_at a) = false -> Run.updated_at b = Run.updated_at a.

(** The shape of a document that the monitor keeps: distinct workflow
    names, every workflow consistent with its own runs, at most ten runs
    held, and metrics within their ranges. *)
Definition well_formed (st : pipeline_status) : Prop :=
  NoDup (map fst (workflows st)) /\
  Forall (fun kv => derived_from_runs (snd kv)) (workflows st) /\
  (length (flatten_runs (workflows st)) <= 10)%nat /\
  (0 <= Metrics.success_rate (metrics st) <= 100)%Q /\
  (0 <= Metrics.avg_duration (metrics st))%Q /\
  0 <= Metrics.total_runs (metrics st) <= 10.

(** What a viewer's handler may change: nothing but the messages delivered
    to the viewer itself. *)
Definition only_delivers_to (ws : nat) (σ σ' : server) : Prop :=
  status σ' = status σ /\ clients σ' = clients σ /\
  (forall c, c ≠ ws -> net σ' !! c = net σ !! c) /\
  (forall conn, net σ !! ws = Some conn ->
     exists more, net σ' !! ws = Some (mk_conn (state conn) (delivered conn ++ more))) /\
  (net σ !! ws = None -> net σ' !! ws = None).

(** * Properties *)

(** ** Duration of a run *)

Section DurationFacts.

Variable fromisoformat : string -> option datetime.

Lemma calculate_duration_parsed (start_time end_time : option string) (ds de : datetime) :
  parse_timestamp fromisoformat start_time = Some ds ->
  parse_timestamp fromisoformat end_time = Some de ->
  _calculate_duration fromisoformat start_time end_time =
    match datetime_sub de ds with
    | inl td => int_total_seconds td
    | inr _ => 0
    end.
Proof.
  destruct start_time as [s|], end_time as [e|]; simpl; try discriminate.
  intros -> ->. reflexivity.
Qed.

Lemma calculate_duration_unparsed (start_time end_time : option string) :
  parse_timestamp fromisoformat start_time = None \/
  parse_timestamp fromisoformat end_time = None ->
  _calculate_duration fromisoformat start_time end_time = 0.
Proof.
  unfold _calculate_duration.
  destruct start_time as [s|], end_time as [e|]; simpl; intros [H|H];
    try discriminate; try reflexivity.
  - rewrite H. reflexivity.
  - rewrite H. destruct (fromisoformat (replace_Z s)); reflexivity.
  - rewrite H. reflexivity.
  - destruct (fromisoformat (replace_Z s)); reflexivity.
Qed.

End DurationFacts.

Lemma int_total_seconds_sign (td : Z) :
  (0 <= td -> 0 <= int_total_seconds td) /\
  (td <= -1000000 -> int_total_seconds td < 0).
Proof.
  unfold int_total_seconds. split; intros H.
  - apply Z.quot_pos; lia.
  - rewrite <- (Z.opp_involutive td), Z.quot_opp_l by lia.
    assert (1 <= Z.quot (- td) 1000000); [|lia].
    apply Z.quot_le_lower_bound; lia.
Qed.

(** C2 (as amended). A run with a missing or unparseable [created_at] or
    [updated_at] has duration 0. When both timestamps parse and can be
    subtracted, the duration is their difference in whole seconds, truncated
    toward zero: it is non-negative when [updated_at] is not before
    [created_at], and negative when [updated_at] is a second or more before
    it. *)
Theorem calculate_duration_zero_or_signed_difference
    (fromisoformat : string -> option datetime) (start_time end_time : option string) :
  (parse_timestamp fromisoformat start_time = None \/
   parse_timestamp fromisoformat end_time = None ->
   _calculate_duration fromisoformat start_time end_time = 0) /\
  (forall ds de td,
     parse_timestamp fromisoformat start_time = Some ds ->
     parse_timestamp fromisoformat end_time = Some de ->
     datetime_sub de ds = inl td ->
     _calculate_duration fromisoformat start_time end_time = Z.quot td 1000000 /\
     (0 <= td -> 0 <= _calculate_duration fromisoformat start_time end_time) /\
     (td <= -1000000 -> _calculate_duration fromisoformat start_time end_time < 0)).
Proof.
  split.
  - apply calculate_duration_unparsed.
  - intros ds de td Hs He Hsub.
    rewrite (calculate_duration_parsed _ _ _ _ _ Hs He), Hsub.
    split; [reflexivity | apply int_total_seconds_sign].
Qed.

Lemma calculate_duration_zero_or_signed_difference_witness :
  _calculate_duration fromisoformat_seconds None (Some "2024-01-01T00:00:00Z") = 0 /\
  0 <= _calculate_duration fromisoformat_seconds
         (Some "2024-01-01T00:00:00Z") (Some "2024-01-01T00:01:30Z").
Proof.
  split.
  - apply (calculate_duration_zero_or_signed_difference fromisoformat_seconds
             None (Some "2024-01-01T00:00:00Z")).
    left. reflexivity.
  - refine (proj1 (proj2 (proj2 (calculate_duration_zero_or_signed_difference
             fromisoformat_seconds
             (Some "2024-01-01T00:00:00Z") (Some "2024-01-01T00:01:30Z"))
             (mk_datetime 63839664000000000 (Some 0))
             (mk_datetime 63839664090000000 (Some 0))
             90000000 _ _ _)) _).
    + vm_compute. reflexivity.
    + vm_compute. reflexivity.
    + vm_compute. reflexivity.
    + lia.
Defined.

(** C2 (as stated) fails: a run whose [updated_at] is ten seconds before its
    [created_at] has duration -10. *)
Lemma calculate_duration_negative :
  _calculate_duration fromisoformat_seconds
    (Some "2024-01-01T00:00:10Z") (Some "2024-01-01T00:00:00Z") = -10 /\
  ~ (0 <= _calculate_duration fromisoformat_seconds
            (Some "2024-01-01T00:00:10Z") (Some "2024-01-01T00:00:00Z")).
Proof.
  split.
  - vm_compute. reflexivity.
  - vm_compute. intros H. apply H. reflexivity.
Qed.

(** ** Dependency pull requests *)

Lemma collect_dependabot_spec (data : list ApiPull.t) (acc : list Pull.t) :
  collect_dependabot data acc = acc ++ map pull_summary (filter is_dependabot data).
Proof.
  revert acc. induction data as [|pr data IH]; intros acc; simpl.
  - by rewrite app_nil_r.
  - rewrite IH, filter_cons. destruct (is_dependabot pr); simpl.
    + by rewrite <- app_assoc.
    + done.
Qed.

Lemma is_dependabot_login (pr : ApiPull.t) :
  is_dependabot pr <-> ApiPull.login (ApiPull.user_ pr) = "dependabot[bot]".
Proof.
  unfold is_dependabot. rewrite Is_true_true. apply String.eqb_eq.
Qed.

(** C9. On a 200 response, [dependabot_prs] has one entry for each pull
    request of the response whose author login is [dependabot[bot]], and for
    no other, in the order of the response; the entry carries the number,
    title, creation and update times, state, URL and mergeable flag of its
    pull request and the names of its labels. *)
Theorem update_dependabot_status_filters_in_order
    (cfg : config) (data : list ApiPull.t) (st : pipeline_status) :
  configured cfg = true ->
  let kept := filter (fun pr => ApiPull.login (ApiPull.user_ pr) = "dependabot[bot]") data in
  Forall2
    (fun pr entry =>
       Pull.number entry = ApiPull.number pr /\
       Pull.title entry = ApiPull.title pr /\
       Pull.created_at entry = ApiPull.created_at pr /\
       Pull.updated_at entry = ApiPull.updated_at pr /\
       Pull.state entry = ApiPull.state pr /\
       Pull.url entry = ApiPull.html_url pr /\
       Pull.mergeable entry = ApiPull.mergeable pr /\
       Pull.labels entry = map ApiPull.label_name (ApiPull.labels pr))
    kept (dependabot_prs (update_dependabot_status cfg (Http 200 data) st)) /\
  dependabot_prs (update_dependabot_status cfg (Http 200 data) st) = map pull_summary kept /\
  kept `sublist_of` data /\
  (forall pr, pr ∈ kept <-> ApiPull.login (ApiPull.user_ pr) = "dependabot[bot]" /\ pr ∈ data).
Proof.
  intros Hcfg kept. unfold update_dependabot_status. rewrite Hcfg. simpl.
  rewrite collect_dependabot_spec. simpl.
  assert (Hk : filter is_dependabot data = kept)
    by apply list_filter_iff, is_dependabot_login.
  rewrite Hk. split; [|split; [|split]].
  - clear Hk. induction kept as [|pr kept IH]; simpl; constructor; [|done].
    by repeat split.
  - done.
  - apply sublist_filter.
  - intros pr. subst kept. by rewrite list_elem_of_filter.
Qed.

Lemma update_dependabot_status_filters_in_order_witness :
  let bot := ApiPull.mk 7 "Bump serde" (Some "2024-03-01T08:00:00Z")
               (Some "2024-03-02T09:30:00Z") "open" "https://github.com/o/r/pull/7"
               None [ApiPull.mk_label "dependencies"; ApiPull.mk_label "rust"]
               (ApiPull.mk_user "dependabot[bot]") in
  let dev := ApiPull.mk 8 "Fix typo" None None "open" "https://github.com/o/r/pull/8"
               (Some true) [] (ApiPull.mk_user "alice") in
  dependabot_prs (update_dependabot_status (mk_config (Some "t") ["o"; "r"])
                    (Http 200 [dev; bot; dev]) initial_status)
  = [Pull.mk 7 "Bump serde" (Some "2024-03-01T08:00:00Z") (Some "2024-03-02T09:30:00Z")
       "open" "https://github.com/o/r/pull/7" None ["dependencies"; "rust"]].
Proof.
  intros bot dev.
  exact (proj1 (proj2 (update_dependabot_status_filters_in_order
           (mk_config (Some "t") ["o"; "r"]) [dev; bot; dev] initial_status eq_refl))).
Defined.

(** ** Inbound viewer messages *)

(** The value [data.get('type')] compares with: the entry of the dict, or
    [None]. *)
Lemma py_get_dict (items : list (string * json)) (k : string) (dflt : json) :
  py_get (JDict items) k dflt = inl (default dflt (assoc k items)).
Proof. unfold py_get. by destruct (assoc k items). Qed.

(** C10. A decoded JSON object whose [type] is neither ['ping'] nor
    ['request_status'] (or is absent) gets no reply: the loop body returns
    normally, so the connection is read further, and the monitor with its
    connections is unchanged. *)
Theorem unknown_type_is_ignored
    (ws : nat) (items : list (string * json)) (σ : server) :
  assoc "type" items <> Some (JStr "ping") ->
  assoc "type" items <> Some (JStr "request_status") ->
  on_message ws (inl (JDict items)) σ = (inl tt, σ).
Proof.
  intros Hping Hreq. unfold on_message, handle_client_message.
  rewrite py_get_dict.
  destruct (assoc "type" items) as [[| | |s| |]|]; simpl; try reflexivity.
  destruct (String.eqb_spec s "ping") as [->|_]; [done|].
  destruct (String.eqb_spec s "request_status") as [->|_]; [done|].
  reflexivity.
Qed.

Lemma unknown_type_is_ignored_witness :
  let σ := mk_server initial_status {[1%nat]} {[1%nat := mk_conn Open []]} in
  on_message 1%nat (inl (JDict [("type", JStr "subscribe"); ("topic", JInt 3)])) σ
  = (inl tt, σ).
Proof.
  intros σ.
  apply (unknown_type_is_ignored 1%nat [("type", JStr "subscribe"); ("topic", JInt 3)] σ).
  - vm_compute. discriminate.
  - vm_compute. discriminate.
Defined.

(** Undecodable text is answered with an error message on an open
    connection, and the loop goes on. *)
Lemma invalid_json_is_answered (ws : nat) (σ : server) (ds : list server_msg) :
  net σ !! ws = Some (mk_conn Open ds) ->
  on_message ws (inr JSONDecodeError) σ =
    (inl tt, mk_server (status σ) (clients σ)
               (<[ws := mk_conn Open (ds ++ [ErrorMsg "Invalid JSON"])]> (net σ))).
Proof.
  intros H. unfold on_message, send. rewrite H. reflexivity.
Qed.

(** C7 at the failing input. A message that decodes to JSON which is not an
    object (here the array [[]]) makes [data.get] raise [AttributeError],
    which no handler catches: the viewer, connected on an open connection,
    gets the initial document and nothing else, the exception escapes
    [handle_client], the viewer is removed and its connection closed. *)
Theorem non_object_json_breaks_connection
    (ws : nat) (σ : server) (ds : list server_msg) :
  net σ !! ws = Some (mk_conn Open ds) ->
  on_message ws (inl (JList [])) σ = (inr AttributeError, σ) /\
  fst (handle_client ws [inl (JList [])] σ) = Some AttributeError /\
  (ws ∉ clients (snd (handle_client ws [inl (JList [])] σ))) /\
  net (snd (handle_client ws [inl (JList [])] σ)) !! ws
    = Some (mk_conn Closed (ds ++ [InitialStatus (status σ)])).
Proof.
  intros H. split; [reflexivity|].
  unfold handle_client, send. simpl. rewrite H. simpl.
  unfold close_connection. rewrite lookup_insert_eq.
  split; [reflexivity|]. split.
  { intros [_ Hn]%elem_of_difference. apply Hn. by apply elem_of_singleton. }
  by rewrite lookup_insert_eq.
Qed.

Lemma non_object_json_breaks_connection_witness :
  fst (handle_client 1%nat [inl (JList [])]
         (mk_server initial_status ∅ {[1%nat := mk_conn Open []]}))
  = Some AttributeError.
Proof.
  apply (non_object_json_breaks_connection 1%nat
           (mk_server initial_status ∅ {[1%nat := mk_conn Open []]}) []).
  reflexivity.
Defined.

(** ** Security reports *)

Lemma max_by_mtime_elem (best : report_file) (rest : list report_file) :
  max_by_mtime best rest ∈ best :: rest.
Proof.
  revert best. induction rest as [|f rest IH]; intros best; simpl.
  - apply list_elem_of_here.
  - specialize (IH (if st_mtime best <? st_mtime f then f else best)).
    apply elem_of_cons in IH as [->|IH].
    + destruct (st_mtime best <? st_mtime f); set_unfold; tauto.
    + set_unfold; tauto.
Qed.

Lemma max_by_mtime_ge_best (best : report_file) (rest : list report_file) :
  st_mtime best <= st_mtime (max_by_mtime best rest).
Proof.
  revert best. induction rest as [|f rest IH]; intros best; simpl; [lia|].
  specialize (IH (if st_mtime best <? st_mtime f then f else best)).
  destruct (Z.ltb_spec (st_mtime best) (st_mtime f)); lia.
Qed.

Lemma max_by_mtime_latest (best : report_file) (rest : list report_file) (f : report_file) :
  f ∈ best :: rest -> st_mtime f <= st_mtime (max_by_mtime best rest).
Proof.
  revert best. induction rest as [|g rest IH]; intros best Hf; simpl.
  - apply list_elem_of_singleton in Hf as ->. lia.
  - apply elem_of_cons in Hf as [->|Hf].
    + pose proof (max_by_mtime_ge_best
                    (if st_mtime best <? st_mtime g then g else best) rest) as H.
      destruct (Z.ltb_spec (st_mtime best) (st_mtime g)); lia.
    + apply elem_of_cons in Hf as [->|Hf].
      * pose proof (max_by_mtime_ge_best
                      (if st_mtime best <? st_mtime g then g else best) rest) as H.
        destruct (Z.ltb_spec (st_mtime best) (st_mtime g)); lia.
      * apply IH. set_unfold; tauto.
Qed.

(** C3 (as amended). When the reports directory is absent the security
    status is left as it was. When it exists and no entry matches the
    pattern, the status becomes NO_SCAN. When entries match, the one chosen
    is a matching entry of greatest modification time; if it loads as an
    object whose [summary] is an object, the status is built from it: the
    scan time from the report's [timestamp], the count and the status from
    the summary (0 and UNKNOWN when absent), and the path of the file. *)
Theorem update_security_status_cases
    (reports_dir : string) (st : pipeline_status) :
  update_security_status reports_dir None st = st /\
  (forall entries,
     filter (fun f => glob_match (file_name f)) entries = [] ->
     security_status (update_security_status reports_dir (Some entries) st) = no_scan /\
     assoc "status" (security_status (update_security_status reports_dir (Some entries) st))
       = Some (JStr "NO_SCAN")) /\
  (forall entries first others,
     filter (fun f => glob_match (file_name f)) entries = first :: others ->
     let latest := max_by_mtime first others in
     latest ∈ entries /\ glob_match (file_name latest) = true /\
     (forall f, f ∈ entries -> glob_match (file_name f) = true ->
                st_mtime f <= st_mtime latest) /\
     (forall items summary,
        loaded latest = Some (JDict items) ->
        assoc "summary" items = Some (JDict summary) ->
        security_status (update_security_status reports_dir (Some entries) st) =
          [("last_scan", default JNull (assoc "timestamp" items));
           ("total_vulnerabilities", default (JInt 0) (assoc "total_vulnerabilities" summary));
           ("status", default (JStr "UNKNOWN") (assoc "status" summary));
           ("report_file", JStr (reports_dir +:+ "/" +:+ file_name latest))])).
Proof.
  split; [reflexivity|]. split.
  - intros entries Hnone. unfold update_security_status. rewrite Hnone. done.
  - intros entries first others Hsome latest.
    assert (Hin : forall f, f ∈ first :: others <->
                            glob_match (file_name f) /\ f ∈ entries).
    { intros f. rewrite <- Hsome. by rewrite list_elem_of_filter. }
    pose proof (max_by_mtime_elem first others) as Hl. fold latest in Hl.
    apply Hin in Hl as [Hglob Hent].
    split; [done|]. split; [by apply Is_true_true|]. split.
    + intros f Hf Hg. apply max_by_mtime_latest, Hin. split; [by apply Is_true_true|done].
    + intros items summary Hload Hsum.
      unfold update_security_status. rewrite Hsome. fold latest. rewrite Hload.
      unfold security_summary, bind, py_get. rewrite Hsum.
      by destruct (assoc "timestamp" items),
                  (assoc "total_vulnerabilities" summary),
                  (assoc "status" summary).
Qed.

Lemma update_security_status_cases_witness :
  let old := mk_report "security-report-1.json" 100
               (Some (JDict [("summary", JDict [("status", JStr "CLEAN")])])) in
  let new := mk_report "security-report-0.json" 300
               (Some (JDict [("timestamp", JStr "2024-05-01T00:00:00");
                             ("summary", JDict [("total_vulnerabilities", JInt 4);
                                                ("status", JStr "VULNERABILITIES_FOUND")])])) in
  let mid := mk_report "security-report-2.json" 200 (Some (JList [])) in
  security_status (update_security_status "docs/security-reports/combined"
                     (Some [old; mk_report "notes.txt" 900 None; new; mid]) initial_status)
  = [("last_scan", JStr "2024-05-01T00:00:00");
     ("total_vulnerabilities", JInt 4);
     ("status", JStr "VULNERABILITIES_FOUND");
     ("report_file", JStr "docs/security-reports/combined/security-report-0.json")].
Proof.
  intros old new mid.
  exact (proj2 (proj2 (proj2 (proj2 (proj2
           (update_security_status_cases "docs/security-reports/combined" initial_status))
           [old; mk_report "notes.txt" 900 None; new; mid] old [new; mid] eq_refl)))
           [("timestamp", JStr "2024-05-01T00:00:00");
            ("summary", JDict [("total_vulnerabilities", JInt 4);
                               ("status", JStr "VULNERABILITIES_FOUND")])]
           [("total_vulnerabilities", JInt 4); ("status", JStr "VULNERABILITIES_FOUND")]
           eq_refl eq_refl).
Defined.

(** C3 (as stated) fails: with the directory absent the status of a fresh
    monitor is not NO_SCAN, the document has no status at all. *)
Lemma absent_directory_is_not_no_scan :
  assoc "status" (security_status
    (update_security_status "docs/security-reports/combined" None initial_status))
  <> Some (JStr "NO_SCAN").
Proof. vm_compute. discriminate. Qed.

(** ** Grouping of the runs *)

Lemma assoc_elem_of {A : Type} (k : string) (d : list (string * A)) (v : A) :
  assoc k d = Some v -> (k, v) ∈ d.
Proof.
  induction d as [|[k' v'] d IH]; simpl; [done|].
  destruct (String.eqb_spec k k') as [->|_].
  - intros [= ->]. apply list_elem_of_here.
  - intros H. apply list_elem_of_further, IH, H.
Qed.

Lemma dict_set_Forall {A : Type} (P : string * A -> Prop) (k : string) (v : A)
    (d : list (string * A)) :
  Forall P d -> P (k, v) -> Forall P (dict_set k v d).
Proof.
  intros Hd Hv. induction Hd as [|[k' v'] d Hx Hd IH]; simpl.
  - by constructor.
  - destruct (String.eqb k k'); by constructor.
Qed.

Section WorkflowFacts.

Variable fromisoformat : string -> option datetime.

Lemma group_step_grouped (ws : list (string * Workflow.t)) (run : ApiRun.t) :
  Forall (fun kv => grouped (snd kv)) ws ->
  Forall (fun kv => grouped (snd kv)) (group_step fromisoformat ws run).
Proof.
  intros Hws. unfold group_step. apply dict_set_Forall; [done|].
  simpl. destruct (assoc (ApiRun.name run) ws) as [w|] eqn:E.
  - apply assoc_elem_of in E. rewrite Forall_forall in Hws.
    destruct (Hws _ E) as (_ & Hs & Ha). simpl in *.
    split; [|done]. simpl. by destruct (Workflow.recent_runs w).
  - split; [|done]. simpl. done.
Qed.

Lemma group_runs_grouped (recent_runs : list ApiRun.t) :
  Forall (fun kv => grouped (snd kv)) (group_runs fromisoformat recent_runs).
Proof.
  unfold group_runs.
  assert (H : forall ws, Forall (fun kv => grouped (snd kv)) ws ->
            Forall (fun kv => grouped (snd kv))
                   (fold_left (group_step fromisoformat) recent_runs ws)).
  { induction recent_runs as [|r rs IH]; intros ws Hws; simpl; [done|].
    apply IH, group_step_grouped, Hws. }
  apply H. constructor.
Qed.

Lemma workflow_metrics_recent_runs (w : Workflow.t) :
  Workflow.recent_runs (workflow_metrics w) = Workflow.recent_runs w.
Proof.
  unfold workflow_metrics. destruct (Workflow.recent_runs w) eqn:E; [done|].
  destruct (filter is_completed _); simpl; by rewrite E.
Qed.

Lemma workflow_metrics_success_rate (w : Workflow.t) :
  Workflow.recent_runs w <> [] ->
  Workflow.success_rate (workflow_metrics w) = success_rate_of (Workflow.recent_runs w).
Proof.
  intros Hne. unfold workflow_metrics.
  destruct (Workflow.recent_runs w) eqn:E; [done|].
  by destruct (filter is_completed _).
Qed.

Lemma workflow_metrics_avg_duration (w : Workflow.t) :
  Workflow.avg_duration (workflow_metrics w) =
    match filter is_completed (Workflow.recent_runs w) with
    | [] => Workflow.avg_duration w
    | _ :: _ => avg_duration_of (filter is_completed (Workflow.recent_runs w))
    end.
Proof.
  unfold workflow_metrics. destruct (Workflow.recent_runs w) eqn:E; [done|].
  by destruct (filter is_completed _).
Qed.

(** Every workflow of the document after a 200 response is a grouped
    workflow passed through the metrics loop. *)
Lemma update_workflow_status_elem (cfg : config) (workflow_runs : list ApiRun.t)
    (st : pipeline_status) (name : string) (wf : Workflow.t) :
  configured cfg = true ->
  (name, wf) ∈ workflows (update_workflow_status fromisoformat cfg (Http 200 workflow_runs) st) ->
  exists w0, grouped w0 /\ wf = workflow_metrics w0.
Proof.
  intros Hcfg. unfold update_workflow_status. rewrite Hcfg. simpl.
  intros Hin. apply list_elem_of_fmap in Hin as ([k w0] & [= -> ->] & Hin).
  exists w0. split; [|done].
  pose proof (group_runs_grouped (firstn 10 workflow_runs)) as HF.
  rewrite Forall_forall in HF. apply (HF _ Hin).
Qed.

End WorkflowFacts.

(** ** Metrics rollup: the two rates *)

Lemma scan_step_rates (m : Metrics.t) (run : Run.t) :
  Metrics.success_rate (scan_step m run) = Metrics.success_rate m /\
  Metrics.avg_duration (scan_step m run) = Metrics.avg_duration m /\
  Metrics.total_runs (scan_step m run) = Metrics.total_runs m.
Proof.
  unfold scan_step.
  destruct (is_success run && negb (truthy (Metrics.last_success m))); [done|].
  by destruct (is_failure run && negb (truthy (Metrics.last_failure m))).
Qed.

Lemma scan_rates (runs : list Run.t) (m : Metrics.t) :
  Metrics.success_rate (fold_left scan_step runs m) = Metrics.success_rate m /\
  Metrics.avg_duration (fold_left scan_step runs m) = Metrics.avg_duration m.
Proof.
  revert m. induction runs as [|r runs IH]; intros m; simpl; [done|].
  destruct (IH (scan_step m r)) as [-> ->].
  destruct (scan_step_rates m r) as (-> & -> & _). done.
Qed.

(** With no run held, the rollup changes nothing. *)
Lemma update_metrics_no_runs (st : pipeline_status) :
  flatten_runs (workflows st) = [] -> update_metrics st = st.
Proof.
  intros H. unfold update_metrics. destruct (workflows st); [done|]. by rewrite H.
Qed.

Lemma update_metrics_success_rate (st : pipeline_status) :
  flatten_runs (workflows st) <> [] ->
  Metrics.success_rate (metrics (update_metrics st)) =
    success_rate_of (flatten_runs (workflows st)).
Proof.
  intros Hne. unfold update_metrics.
  destruct (workflows st) as [|kv wfs] eqn:Ew; [done|].
  destruct (flatten_runs (kv :: wfs)) as [|r rs] eqn:Ef; [done|].
  destruct (sorted_by_updated_at (r :: rs)); simpl.
  - rewrite (proj1 (scan_rates _ _)). by destruct (filter is_completed (r :: rs)).
  - by destruct (filter is_completed (r :: rs)).
Qed.

Lemma update_metrics_avg_duration (st : pipeline_status) :
  Metrics.avg_duration (metrics (update_metrics st)) =
    match filter is_completed (flatten_runs (workflows st)) with
    | [] => Metrics.avg_duration (metrics st)
    | _ :: _ => avg_duration_of (filter is_completed (flatten_runs (workflows st)))
    end.
Proof.
  unfold update_metrics.
  destruct (workflows st) as [|kv wfs] eqn:Ew; [done|].
  destruct (flatten_runs (kv :: wfs)) as [|r rs] eqn:Ef; [done|].
  destruct (sorted_by_updated_at (r :: rs)); simpl.
  - rewrite (proj2 (scan_rates _ _)). by destruct (filter is_completed (r :: rs)).
  - by destruct (filter is_completed (r :: rs)).
Qed.

Lemma assoc_dict_set {A : Type} (k k' : string) (v : A) (d : list (string * A)) :
  assoc k (dict_set k' v d) = if String.eqb k k' then Some v else assoc k d.
Proof.
  induction d as [|[k0 v0] d IH]; simpl.
  - done.
  - destruct (String.eqb_spec k' k0) as [->|Hne]; simpl.
    + by destruct (String.eqb k k0).
    + rewrite IH. destruct (String.eqb_spec k k0) as [->|_]; [|done].
      destruct (String.eqb_spec k0 k') as [->|_]; done.
Qed.

Lemma dict_set_keys {A : Type} (k : string) (v : A) (d : list (string * A)) :
  map fst (dict_set k v d) =
    match assoc k d with
    | Some _ => map fst d
    | None => map fst d ++ [k]
    end.
Proof.
  induction d as [|[k0 v0] d IH]; simpl; [done|].
  destruct (String.eqb_spec k k0) as [->|Hne]; simpl; [done|].
  rewrite IH. by destruct (assoc k d).
Qed.

Lemma assoc_None_keys {A : Type} (k : string) (d : list (string * A)) :
  assoc k d = None -> k ∉ map fst d.
Proof.
  induction d as [|[k0 v0] d IH]; simpl.
  - intros _. apply not_elem_of_nil.
  - destruct (String.eqb_spec k k0) as [->|Hne]; [done|].
    intros H. apply not_elem_of_cons. split; [done|]. by apply IH.
Qed.

Lemma elem_of_assoc {A : Type} (k : string) (v : A) (d : list (string * A)) :
  NoDup (map fst d) -> (k, v) ∈ d -> assoc k d = Some v.
Proof.
  induction d as [|[k0 v0] d IH]; simpl.
  - intros _ H. by apply elem_of_nil in H.
  - intros [Hk0 Hd]%NoDup_cons [[= -> ->]|Hin]%elem_of_cons.
    + by rewrite String.eqb_refl.
    + destruct (String.eqb_spec k k0) as [->|_]; [|by apply IH].
      exfalso. apply Hk0. apply list_elem_of_fmap. by exists (k0, v).
Qed.

Section GroupingFacts.

Variable fromisoformat : string -> option datetime.

Lemma group_runs_snoc (runs : list ApiRun.t) (r : ApiRun.t) :
  group_runs fromisoformat (runs ++ [r]) =
  group_step fromisoformat (group_runs fromisoformat runs) r.
Proof. unfold group_runs. by rewrite fold_left_app. Qed.

Lemma group_runs_keys_NoDup (runs : list ApiRun.t) :
  NoDup (map fst (group_runs fromisoformat runs)).
Proof.
  induction runs as [|r runs IH] using rev_ind.
  - constructor.
  - rewrite group_runs_snoc. unfold group_step. rewrite dict_set_keys.
    destruct (assoc (ApiRun.name r) (group_runs fromisoformat runs)) eqn:E; [done|].
    apply NoDup_app. split; [done|]. split.
    + intros x Hx [->|[]%elem_of_nil]%elem_of_cons.
      by apply assoc_None_keys in E.
    + apply NoDup_singleton.
Qed.

(** The entry of a workflow name after the grouping loop: its runs are the
    summaries of the runs of that name, in the order of the response, and
    [latest_run] is the first of them. *)
Lemma group_runs_assoc (runs : list ApiRun.t) (k : string) :
  assoc k (group_runs fromisoformat runs) =
    match filter (fun r => ApiRun.name r = k) runs with
    | [] => None
    | first :: rest =>
        Some (Workflow.mk first (map (run_summary fromisoformat) (first :: rest)) 0%Q 0%Q)
    end.
Proof.
  induction runs as [|r runs IH] using rev_ind.
  - done.
  - rewrite group_runs_snoc, filter_app. unfold group_step.
    rewrite assoc_dict_set.
    destruct (String.eqb_spec k (ApiRun.name r)) as [->|Hne].
    + rewrite IH. rewrite filter_cons, decide_True by done.
      destruct (filter _ runs) as [|first rest]; simpl.
      * done.
      * unfold Workflow.set_recent_runs; simpl. by rewrite map_app.
    + rewrite IH. rewrite filter_cons, decide_False by done.
      by rewrite app_nil_r.
Qed.

Lemma group_runs_elem (runs : list ApiRun.t) (k : string) (w : Workflow.t) :
  (k, w) ∈ group_runs fromisoformat runs ->
  Workflow.recent_runs w =
    map (run_summary fromisoformat) (filter (fun r => ApiRun.name r = k) runs).
Proof.
  intros Hin. apply elem_of_assoc in Hin; [|apply group_runs_keys_NoDup].
  rewrite group_runs_assoc in Hin.
  destruct (filter _ runs); [done|]. by injection Hin as <-.
Qed.

End GroupingFacts.

(** ** Success rate *)

Lemma success_rate_of_formula (runs : list Run.t) :
  (success_rate_of runs ==
   100 * Qnat (length (filter (fun r => Run.conclusion r = Some "success") runs))
   / Qnat (length runs))%Q.
Proof.
  unfold success_rate_of.
  replace (filter is_success runs)
    with (filter (fun r => Run.conclusion r = Some "success") runs).
  - unfold Qdiv. ring.
  - apply list_filter_iff. intros r. unfold is_success, conclusion_is.
    destruct (Run.conclusion r) as [s|]; simpl.
    + rewrite Is_true_true, String.eqb_eq. split; congruence.
    + split; [done|intros []].
Qed.

(** C4 (as amended). After a 200 response every workflow of the document
    holds the runs of its name (among the first ten of the response), at
    least one, and its success rate is 100 × successes / runs. The aggregate
    rate after the rollup is 100 × successes / runs over all the runs held
    when there is at least one; when no run is held the rollup leaves the
    metrics as they were (0 only if that was the value before). *)
Theorem success_rate_is_percentage_of_successes
    (fromisoformat : string -> option datetime) (cfg : config)
    (workflow_runs : list ApiRun.t) (st0 st : pipeline_status) :
  configured cfg = true ->
  (forall name wf,
     (name, wf) ∈ workflows
        (update_workflow_status fromisoformat cfg (Http 200 workflow_runs) st0) ->
     let runs := Workflow.recent_runs wf in
     runs = map (run_summary fromisoformat)
              (filter (fun r => ApiRun.name r = name) (firstn 10 workflow_runs)) /\
     runs <> [] /\
     (Workflow.success_rate wf ==
      100 * Qnat (length (filter (fun r => Run.conclusion r = Some "success") runs))
      / Qnat (length runs))%Q) /\
  (let all_runs := flatten_runs (workflows st) in
   (all_runs <> [] ->
    (Metrics.success_rate (metrics (update_metrics st)) ==
     100 * Qnat (length (filter (fun r => Run.conclusion r = Some "success") all_runs))
     / Qnat (length all_runs))%Q) /\
   (all_runs = [] -> metrics (update_metrics st) = metrics st)).
Proof.
  intros Hcfg. split.
  - intros name wf Hin runs.
    destruct (update_workflow_status_elem _ _ _ _ _ _ Hcfg Hin) as (w0 & (Hne & _) & ->).
    subst runs. rewrite workflow_metrics_recent_runs.
    split; [|split; [done|]].
    + unfold update_workflow_status in Hin. rewrite Hcfg in Hin. simpl in Hin.
      apply list_elem_of_fmap in Hin as ([k w1] & [= -> Hw] & Hin).
      apply group_runs_elem in Hin. simpl in Hw.
      rewrite <- Hin. by rewrite <- (workflow_metrics_recent_runs w0), Hw,
        workflow_metrics_recent_runs.
    + rewrite workflow_metrics_success_rate by done. apply success_rate_of_formula.
  - intros all_runs. split.
    + intros Hne. rewrite update_metrics_success_rate by done.
      apply success_rate_of_formula.
    + intros Hnil. by rewrite update_metrics_no_runs.
Qed.

Lemma success_rate_is_percentage_of_successes_witness :
  let runs := [example_run "CI" 1 (Some "success") "2024-01-01T00:00:00Z" "2024-01-01T00:05:00Z";
               example_run "CI" 2 (Some "failure") "2024-01-01T01:00:00Z" "2024-01-01T01:05:00Z"] in
  let st := update_workflow_status fromisoformat_seconds example_config
              (Http 200 runs) initial_status in
  (Metrics.success_rate (metrics (update_metrics st)) == 100 * Qnat 1 / Qnat 2)%Q.
Proof.
  intros runs st.
  refine (proj1 (proj2 (success_rate_is_percentage_of_successes
            fromisoformat_seconds example_config runs initial_status st _)) _).
  - reflexivity.
  - vm_compute. discriminate.
Defined.

(** C4 (as stated) fails on the empty run list: after a cycle with one
    successful run and a second cycle in which the API reports no run, no run
    is held and the aggregate success rate is still 100. *)
Lemma success_rate_not_zero_without_runs :
  let st1 := example_cycle
               [example_run "CI" 1 (Some "success")
                  "2024-01-01T00:00:00Z" "2024-01-01T00:05:00Z"] initial_status in
  let st2 := example_cycle [] st1 in
  flatten_runs (workflows st2) = [] /\
  ~ (Metrics.success_rate (metrics st2) == 0)%Q.
Proof.
  split.
  - vm_compute. reflexivity.
  - vm_compute. discriminate.
Qed.

(** ** Average duration *)

Lemma filter_is_completed (runs : list Run.t) :
  filter is_completed runs = filter (fun r => 0 < Run.duration r) runs.
Proof.
  apply list_filter_iff. intros r. unfold is_completed.
  by rewrite Is_true_true, Z.ltb_lt.
Qed.

Lemma sum_duration_foldr (runs : list Run.t) :
  sum_duration runs = foldr Z.add 0 (map Run.duration runs).
Proof. induction runs as [|r runs IH]; simpl; [done|]. by rewrite <- IH. Qed.

(** C6 (as amended). When a workflow, or the metrics, has at least one run
    of positive duration, its average duration is the sum of the durations
    of those runs divided by their number: a run of duration 0 (or less)
    counts in neither. When no run has a positive duration no mean is taken:
    a workflow's average is 0, and the average of the metrics keeps the
    value it had before the rollup. *)
Theorem avg_duration_is_mean_of_positive_durations_or_kept
    (fromisoformat : string -> option datetime) (cfg : config)
    (workflow_runs : list ApiRun.t) (st0 st : pipeline_status) :
  configured cfg = true ->
  (forall name wf,
     (name, wf) ∈ workflows
        (update_workflow_status fromisoformat cfg (Http 200 workflow_runs) st0) ->
     let completed := filter (fun r => 0 < Run.duration r) (Workflow.recent_runs wf) in
     (completed <> [] ->
      (Workflow.avg_duration wf ==
       inject_Z (foldr Z.add 0%Z (map Run.duration completed))
       / inject_Z (Z.of_nat (length completed)))%Q) /\
     (completed = [] -> Workflow.avg_duration wf = 0%Q)) /\
  (let completed := filter (fun r => 0 < Run.duration r) (flatten_runs (workflows st)) in
   (completed <> [] ->
    (Metrics.avg_duration (metrics (update_metrics st)) ==
     inject_Z (foldr Z.add 0%Z (map Run.duration completed))
     / inject_Z (Z.of_nat (length completed)))%Q) /\
   (completed = [] ->
    Metrics.avg_duration (metrics (update_metrics st)) = Metrics.avg_duration (metrics st))).
Proof.
  intros Hcfg. split.
  - intros name wf Hin completed.
    destruct (update_workflow_status_elem _ _ _ _ _ _ Hcfg Hin)
      as (w0 & (_ & _ & Ha0) & ->).
    subst completed. rewrite workflow_metrics_recent_runs.
    rewrite workflow_metrics_avg_duration, filter_is_completed.
    destruct (filter _ (Workflow.recent_runs w0)) as [|r rs] eqn:E.
    + by split.
    + split; [|done]. intros _. unfold avg_duration_of, Qnat.
      by rewrite sum_duration_foldr.
  - intros completed. subst completed.
    rewrite update_metrics_avg_duration, filter_is_completed.
    destruct (filter _ (flatten_runs (workflows st))) as [|r rs] eqn:E.
    + by split.
    + split; [|done]. intros _. unfold avg_duration_of, Qnat.
      by rewrite sum_duration_foldr.
Qed.

Lemma avg_duration_is_mean_of_positive_durations_or_kept_witness :
  let runs := [example_run "CI" 1 (Some "success") "2024-01-01T00:00:00Z" "2024-01-01T00:01:00Z";
               example_run "CI" 2 None "2024-01-01T01:00:00Z" "2024-01-01T01:00:00Z";
               example_run "CI" 3 (Some "failure") "2024-01-01T02:00:00Z" "2024-01-01T02:00:30Z"] in
  let st := update_workflow_status fromisoformat_seconds example_config
              (Http 200 runs) initial_status in
  (Metrics.avg_duration (metrics (update_metrics st))
   == inject_Z (60 + (30 + 0)) / inject_Z (Z.of_nat 2))%Q.
Proof.
  intros runs st.
  refine (proj1 (proj2 (avg_duration_is_mean_of_positive_durations_or_kept
            fromisoformat_seconds example_config runs initial_status st _)) _).
  - reflexivity.
  - vm_compute. discriminate.
Defined.

(** C6 (as stated) fails: after a cycle whose run took 60 seconds and a
    cycle whose only run has duration 0, no run of positive duration is held
    and the average of the metrics is still 60, the mean of nothing held. *)
Lemma avg_duration_not_a_mean_without_positive_durations :
  let earlier := [example_run "CI" 1 (Some "success")
                    "2024-01-01T00:00:00Z" "2024-01-01T00:01:00Z"] in
  let current := [example_run "CI" 2 None
                    "2024-01-01T02:00:00Z" "2024-01-01T02:00:00Z"] in
  let st := example_cycle current (example_cycle earlier initial_status) in
  let completed := filter (fun r => 0 < Run.duration r) (flatten_runs (workflows st)) in
  completed = [] /\
  (Metrics.avg_duration (metrics st) == 60)%Q /\
  ~ (Metrics.avg_duration (metrics st) ==
     inject_Z (foldr Z.add 0%Z (map Run.duration completed))
     / inject_Z (Z.of_nat (length completed)))%Q.
Proof.
  split; [|split].
  - vm_compute. reflexivity.
  - vm_compute. reflexivity.
  - vm_compute. discriminate.
Qed.

(** ** Recomputation of the derived fields *)

Lemma workflow_metrics_derived (w : Workflow.t) :
  grouped w -> derived_from_runs (workflow_metrics w).
Proof.
  intros (Hne & Hs & Ha). unfold derived_from_runs.
  rewrite workflow_metrics_recent_runs, workflow_metrics_avg_duration, Ha.
  split; [done|]. split; [by apply workflow_metrics_success_rate|done].
Qed.

Lemma update_workflow_status_derived (fromisoformat : string -> option datetime)
    (cfg : config) (resp : response (list ApiRun.t)) (st : pipeline_status) :
  Forall (fun kv => derived_from_runs (snd kv)) (workflows st) ->
  Forall (fun kv => derived_from_runs (snd kv))
         (workflows (update_workflow_status fromisoformat cfg resp st)).
Proof.
  intros Hst. unfold update_workflow_status.
  destruct (configured cfg); [|done].
  destruct resp as [code workflow_runs|]; [|done].
  destruct (code =? 200); [|done]. simpl.
  apply Forall_fmap.
  eapply Forall_impl; [apply group_runs_grouped|].
  intros [k w]. simpl. apply workflow_metrics_derived.
Qed.

Lemma update_dependabot_status_keeps (cfg : config) (resp : response (list ApiPull.t))
    (st : pipeline_status) :
  workflows (update_dependabot_status cfg resp st) = workflows st /\
  metrics (update_dependabot_status cfg resp st) = metrics st.
Proof.
  unfold update_dependabot_status.
  destruct (configured cfg); [|done]. destruct resp as [code data|]; [|done].
  by destruct (code =? 200).
Qed.

Lemma update_security_status_keeps (reports_dir : string)
    (listing : option (list report_file)) (st : pipeline_status) :
  workflows (update_security_status reports_dir listing st) = workflows st /\
  metrics (update_security_status reports_dir listing st) = metrics st.
Proof.
  unfold update_security_status.
  destruct listing as [entries|]; [|done].
  destruct (filter _ entries) as [|first others]; [done|].
  destruct (loaded _); [|done]. by destruct (security_summary _ _).
Qed.

Lemma update_workflow_status_metrics (fromisoformat : string -> option datetime)
    (cfg : config) (resp : response (list ApiRun.t)) (st : pipeline_status) :
  metrics (update_workflow_status fromisoformat cfg resp st) = metrics st.
Proof.
  unfold update_workflow_status.
  destruct (configured cfg); [|done]. destruct resp as [code data|]; [|done].
  by destruct (code =? 200).
Qed.

Lemma update_metrics_workflows (st : pipeline_status) :
  workflows (update_metrics st) = workflows st.
Proof.
  unfold update_metrics. destruct (workflows st) as [|kv wfs] eqn:E; [done|].
  destruct (flatten_runs (kv :: wfs)); [done|].
  destruct (sorted_by_updated_at _); simpl; by rewrite E.
Qed.

(** C5 (as amended). In every poll cycle the per-workflow success rate and
    average duration are those the workflow's own runs give. The aggregate
    success rate is recomputed from the runs held when there is at least
    one, and the aggregate average duration when at least one run has a
    positive duration; otherwise the field keeps the value it had before the
    cycle. *)
Theorem derived_fields_recomputed_or_kept
    (fromisoformat : string -> option datetime) (cfg : config) (reports_dir : string)
    (inp : poll_inputs) (st : pipeline_status) :
  let st' := poll_cycle fromisoformat cfg reports_dir inp st in
  let all_runs := flatten_runs (workflows st') in
  (Forall (fun kv => derived_from_runs (snd kv)) (workflows st) ->
   Forall (fun kv => derived_from_runs (snd kv)) (workflows st')) /\
  (all_runs <> [] ->
   Metrics.success_rate (metrics st') = success_rate_of all_runs) /\
  (all_runs = [] ->
   Metrics.success_rate (metrics st') = Metrics.success_rate (metrics st)) /\
  (filter is_completed all_runs <> [] ->
   Metrics.avg_duration (metrics st') = avg_duration_of (filter is_completed all_runs)) /\
  (filter is_completed all_runs = [] ->
   Metrics.avg_duration (metrics st') = Metrics.avg_duration (metrics st)).
Proof.
  intros st' all_runs. subst all_runs st'. unfold poll_cycle.
  set (st1 := update_workflow_status fromisoformat cfg (runs_response inp) st).
  set (st2 := update_dependabot_status cfg (pulls_response inp) st1).
  set (st3 := update_security_status reports_dir (reports_listing inp) st2).
  assert (Hw : workflows st3 = workflows st1).
  { subst st3 st2. rewrite (proj1 (update_security_status_keeps _ _ _)).
    apply update_dependabot_status_keeps. }
  assert (Hm : metrics st3 = metrics st).
  { subst st3 st2 st1. rewrite (proj2 (update_security_status_keeps _ _ _)).
    rewrite (proj2 (update_dependabot_status_keeps _ _ _)).
    apply update_workflow_status_metrics. }
  rewrite update_metrics_workflows.
  split; [|split; [|split; [|split]]].
  - intros Hst. rewrite Hw. by apply update_workflow_status_derived.
  - apply update_metrics_success_rate.
  - intros Hnil. by rewrite update_metrics_no_runs, Hm.
  - intros Hne. rewrite update_metrics_avg_duration.
    by destruct (filter is_completed (flatten_runs (workflows st3))).
  - intros Hnil. by rewrite update_metrics_avg_duration, Hnil, Hm.
Qed.

Lemma derived_fields_recomputed_or_kept_witness :
  let st' := example_cycle
               [example_run "CI" 1 (Some "success")
                  "2024-01-01T00:00:00Z" "2024-01-01T00:01:00Z"] initial_status in
  Metrics.success_rate (metrics st') = success_rate_of (flatten_runs (workflows st')).
Proof.
  intros st'.
  refine (proj1 (proj2 (derived_fields_recomputed_or_kept fromisoformat_seconds
            example_config "docs/security-reports/combined"
            (mk_inputs (Http 200 [example_run "CI" 1 (Some "success")
                                    "2024-01-01T00:00:00Z" "2024-01-01T00:01:00Z"])
                       Failed None)
            initial_status)) _).
  vm_compute. discriminate.
Defined.

(** C5 (as stated) fails: the same cycle, ending with the same runs held,
    leaves different average durations in the metrics depending on the cycle
    before it. The run held has duration 0, and the 60 seconds of the earlier
    cycle are carried over. *)
Lemma avg_duration_carried_over :
  let earlier := [example_run "CI" 1 (Some "success")
                    "2024-01-01T00:00:00Z" "2024-01-01T00:01:00Z"] in
  let current := [example_run "CI" 2 None
                    "2024-01-01T02:00:00Z" "2024-01-01T02:00:00Z"] in
  let a := example_cycle current (example_cycle earlier initial_status) in
  let b := example_cycle current initial_status in
  workflows a = workflows b /\
  ~ (Metrics.avg_duration (metrics a) == Metrics.avg_duration (metrics b))%Q /\
  (Metrics.avg_duration (metrics a) == 60)%Q.
Proof.
  split; [|split].
  - vm_compute. reflexivity.
  - vm_compute. discriminate.
  - vm_compute. reflexivity.
Qed.

(** ** Broadcast *)










(** ** Last success and last failure *)

Lemma ltb_false_le (x y : string) : String.ltb x y = false <-> String.le y x.
Proof.
  unfold String.le, String.leb, String.ltb. rewrite (String.compare_antisym y x).
  destruct (String.compare x y); simpl; split; done.
Qed.

Lemma ltb_empty (s : string) : String.ltb "" s = false -> s = "".
Proof. by destruct s. Qed.

Lemma desc_refl (a : Run.t) : desc a a.
Proof.
  unfold desc, key_lt. destruct (Run.updated_at a) as [s|]; [|done].
  by apply ltb_false_le.
Qed.

Lemma desc_trans (a b c : Run.t) :
  has_key b -> desc a b -> desc b c -> desc a c.
Proof.
  unfold desc, key_lt, has_key.
  destruct (Run.updated_at a) as [x|], (Run.updated_at b) as [y|],
           (Run.updated_at c) as [z|]; try done.
  rewrite !ltb_false_le. intros _ Hyx Hzy. by etrans.
Qed.

Lemma desc_total (a b : Run.t) : desc a b \/ desc b a.
Proof.
  unfold desc, key_lt.
  destruct (Run.updated_at a) as [x|], (Run.updated_at b) as [y|]; auto.
  rewrite !ltb_false_le. destruct (total String.le x y); auto.
Qed.

Lemma desc_settled (a b : Run.t) : has_key a -> has_key b -> desc a b -> settled a b.
Proof.
  unfold desc, key_lt, has_key, settled, truthy.
  destruct (Run.updated_at a) as [x|], (Run.updated_at b) as [y|]; try done.
  destruct (String.eqb_spec x "") as [->|]; simpl; [|done].
  intros _ _ Hy _. by rewrite (ltb_empty y Hy).
Qed.

Lemma insert_desc_perm (x : Run.t) (l : list Run.t) : insert_desc x l ≡ₚ x :: l.
Proof.
  induction l as [|y l IH]; simpl; [done|].
  destruct (key_lt _ _); [|done]. rewrite IH. apply Permutation_swap.
Qed.

Lemma sort_desc_perm (l : list Run.t) : sort_desc l ≡ₚ l.
Proof.
  induction l as [|x l IH]; simpl; [done|].
  by rewrite insert_desc_perm, IH.
Qed.

Lemma insert_desc_sorted (x : Run.t) (l : list Run.t) :
  Forall has_key l -> StronglySorted desc l -> StronglySorted desc (insert_desc x l).
Proof.
  intros Hk Hs. induction Hs as [|y l Hs IH Hy]; simpl.
  - repeat constructor.
  - apply Forall_cons in Hk as [Hky Hkl].
    destruct (key_lt (Run.updated_at x) (Run.updated_at y)) eqn:E.
    + constructor; [by apply IH|].
      rewrite insert_desc_perm. constructor; [|done].
      destruct (desc_total y x) as [?|Hxy]; [done|].
      unfold desc in Hxy. congruence.
    + constructor; [by constructor|]. constructor; [done|].
      eapply Forall_impl; [exact Hy|]. intros z Hz. by apply (desc_trans x y z).
Qed.

Lemma sort_desc_sorted (l : list Run.t) :
  Forall has_key l -> StronglySorted desc (sort_desc l).
Proof.
  induction 1 as [|x l Hx Hl IH]; simpl; [constructor|].
  apply insert_desc_sorted; [|done]. by rewrite sort_desc_perm.
Qed.

(** What a sort that did not raise returns. *)
Lemma sorted_by_updated_at_inl (all_runs sorted_runs : list Run.t) :
  sorted_by_updated_at all_runs = inl sorted_runs ->
  sorted_runs = sort_desc all_runs /\
  ((exists r, all_runs = [r]) \/ all_runs = [] \/ Forall has_key all_runs).
Proof.
  unfold sorted_by_updated_at.
  destruct (_ && _) eqn:E; [done|]. intros [= <-]. split; [done|].
  apply andb_false_iff in E as [E|E].
  - destruct all_runs as [|r [|r' l]]; [auto|left; by exists r|done].
  - right; right. apply Forall_forall. intros r Hr. unfold has_key.
    destruct (is_None (Run.updated_at r)) eqn:En; [|done].
    assert (existsb (fun r => is_None (Run.updated_at r)) all_runs = true); [|congruence].
    apply existsb_exists. exists r. split; [by apply list_elem_of_In|done].
Qed.

Lemma sorted_runs_shape (all_runs sorted_runs : list Run.t) :
  sorted_by_updated_at all_runs = inl sorted_runs ->
  sorted_runs ≡ₚ all_runs /\
  StronglySorted desc sorted_runs /\ StronglySorted settled sorted_runs.
Proof.
  intros H. apply sorted_by_updated_at_inl in H as [-> H].
  split; [apply sort_desc_perm|].
  destruct H as [[r ->]|[->|Hk]].
  - simpl. split; repeat constructor.
  - simpl. split; constructor.
  - assert (Hs := sort_desc_sorted _ Hk).
    assert (Hk' : Forall has_key (sort_desc all_runs)) by by rewrite sort_desc_perm.
    split; [done|].
    induction Hs as [|x l Hs IH Hx]; [constructor|].
    apply Forall_cons in Hk' as [Hkx Hkl].
    constructor; [by apply IH|].
    rewrite Forall_forall in Hx, Hkl. apply Forall_forall. intros z Hz.
    apply desc_settled; auto.
Qed.

Lemma success_not_failure (r : Run.t) : is_success r = true -> is_failure r = false.
Proof.
  unfold is_success, is_failure, conclusion_is.
  destruct (Run.conclusion r) as [s|]; [|done].
  intros ->%String.eqb_eq. done.
Qed.

Lemma head_filter_cons (p : Run.t -> bool) (r : Run.t) (l : list Run.t) :
  head (filter p (r :: l)) = if p r then Some r else head (filter p l).
Proof. rewrite filter_cons. by destruct (p r). Qed.

(** The scan over runs in settled order: a field that is already set is
    kept; otherwise the first matching run decides. *)
Lemma scan_last_success (l : list Run.t) (m : Metrics.t) :
  StronglySorted settled l ->
  Metrics.last_success (fold_left scan_step l m) =
    if truthy (Metrics.last_success m) then Metrics.last_success m
    else match head (filter is_success l) with
         | Some r => Run.updated_at r
         | None => Metrics.last_success m
         end.
Proof.
  intros Hs. revert m. induction Hs as [|r l Hs IH Hr]; intros m.
  - simpl. by destruct (truthy _).
  - simpl fold_left. rewrite IH, head_filter_cons. unfold scan_step.
    destruct (truthy (Metrics.last_success m)) eqn:Et; simpl.
    + rewrite andb_false_r.
      destruct (is_failure r && _); simpl; by rewrite Et.
    + rewrite andb_true_r. destruct (is_success r) eqn:Es; simpl.
      * destruct (truthy (Run.updated_at r)) eqn:Er; [done|].
        destruct (head (filter is_success l)) as [r'|] eqn:Eh; [|done].
        apply head_Some_elem_of, list_elem_of_filter in Eh as [_ Hin].
        rewrite Forall_forall in Hr. by apply Hr.
      * destruct (is_failure r && _); simpl; by rewrite Et.
Qed.

Lemma scan_last_failure (l : list Run.t) (m : Metrics.t) :
  StronglySorted settled l ->
  Metrics.last_failure (fold_left scan_step l m) =
    if truthy (Metrics.last_failure m) then Metrics.last_failure m
    else match head (filter is_failure l) with
         | Some r => Run.updated_at r
         | None => Metrics.last_failure m
         end.
Proof.
  intros Hs. revert m. induction Hs as [|r l Hs IH Hr]; intros m.
  - simpl. by destruct (truthy _).
  - simpl fold_left. rewrite IH, head_filter_cons. unfold scan_step.
    destruct (is_success r) eqn:Es; simpl.
    + rewrite (success_not_failure r Es).
      destruct (negb (truthy (Metrics.last_success m))); simpl; done.
    + destruct (truthy (Metrics.last_failure m)) eqn:Et; simpl.
      * rewrite andb_false_r. by rewrite Et.
      * rewrite andb_true_r. destruct (is_failure r) eqn:Ef; simpl; [|by rewrite Et].
        destruct (truthy (Run.updated_at r)) eqn:Er; [done|].
        destruct (head (filter is_failure l)) as [r'|] eqn:Eh; [|done].
        apply head_Some_elem_of, list_elem_of_filter in Eh as [_ Hin].
        rewrite Forall_forall in Hr. by apply Hr.
Qed.

(** The first match of a descending list is a greatest match. *)
Lemma head_filter_greatest (p : Run.t -> bool) (l : list Run.t) (r : Run.t) :
  StronglySorted desc l ->
  head (filter p l) = Some r ->
  r ∈ l /\ p r = true /\ forall r', r' ∈ l -> p r' = true -> desc r r'.
Proof.
  intros Hs. induction Hs as [|x l Hs IH Hx]; [done|].
  rewrite head_filter_cons. destruct (p x) eqn:Ep.
  - intros [= <-]. split; [apply list_elem_of_here|]. split; [done|].
    intros r' [->|Hin]%elem_of_cons _; [apply desc_refl|].
    rewrite Forall_forall in Hx. by apply Hx.
  - intros H. destruct (IH H) as (Hin & Hp & Hmax).
    split; [by apply list_elem_of_further|]. split; [done|].
    intros r' [->|Hin']%elem_of_cons Hp'; [congruence|by apply Hmax].
Qed.

Lemma update_metrics_sorted (st : pipeline_status) (sorted_runs : list Run.t) :
  flatten_runs (workflows st) <> [] ->
  sorted_by_updated_at (flatten_runs (workflows st)) = inl sorted_runs ->
  exists m2,
    Metrics.last_success m2 = Metrics.last_success (metrics st) /\
    Metrics.last_failure m2 = Metrics.last_failure (metrics st) /\
    metrics (update_metrics st) =
      Metrics.set_total_runs (Z.of_nat (length (flatten_runs (workflows st))))
        (fold_left scan_step sorted_runs m2).
Proof.
  intros Hne Hsort. unfold update_metrics.
  destruct (workflows st) as [|kv wfs] eqn:Ew; [done|].
  destruct (flatten_runs (kv :: wfs)) as [|r rs] eqn:Ef; [done|].
  rewrite Hsort. simpl. eexists. split; [|split; [|reflexivity]].
  - by destruct (filter is_completed (r :: rs)).
  - by destruct (filter is_completed (r :: rs)).
Qed.

Lemma update_metrics_sort_raises (st : pipeline_status) (e : exn) :
  sorted_by_updated_at (flatten_runs (workflows st)) = inr e ->
  Metrics.last_success (metrics (update_metrics st)) = Metrics.last_success (metrics st) /\
  Metrics.last_failure (metrics (update_metrics st)) = Metrics.last_failure (metrics st).
Proof.
  intros Hsort. unfold update_metrics.
  destruct (workflows st) as [|kv wfs] eqn:Ew; [done|].
  destruct (flatten_runs (kv :: wfs)) as [|r rs] eqn:Ef; [done|].
  rewrite Hsort. simpl. by destruct (filter is_completed (r :: rs)).
Qed.

(** C1 (as amended). The rollup scans the runs sorted by [updated_at] in
    descending order, not in group order. When the sort goes through, a
    [last_success] that is already set is kept; otherwise it becomes the
    [updated_at] of the first successful run of the sorted list, which is a
    successful run of greatest [updated_at] among all the runs held (and it
    stays as it was when no run succeeded). [last_failure] follows the same
    rule over the runs that failed or were cancelled. When the sort raises,
    both fields stay as they were. *)
Theorem last_success_is_greatest_updated_at (st : pipeline_status) :
  let all_runs := flatten_runs (workflows st) in
  let m := metrics st in
  let m' := metrics (update_metrics st) in
  all_runs <> [] ->
  (forall sorted_runs,
     sorted_by_updated_at all_runs = inl sorted_runs ->
     sorted_runs ≡ₚ all_runs /\ StronglySorted desc sorted_runs /\
     Metrics.last_success m' =
       (if truthy (Metrics.last_success m) then Metrics.last_success m
        else match head (filter is_success sorted_runs) with
             | Some r => Run.updated_at r
             | None => Metrics.last_success m
             end) /\
     Metrics.last_failure m' =
       (if truthy (Metrics.last_failure m) then Metrics.last_failure m
        else match head (filter is_failure sorted_runs) with
             | Some r => Run.updated_at r
             | None => Metrics.last_failure m
             end) /\
     (forall r, head (filter is_success sorted_runs) = Some r ->
        r ∈ all_runs /\ is_success r = true /\
        forall r', r' ∈ all_runs -> is_success r' = true -> desc r r') /\
     (forall r, head (filter is_failure sorted_runs) = Some r ->
        r ∈ all_runs /\ is_failure r = true /\
        forall r', r' ∈ all_runs -> is_failure r' = true -> desc r r')) /\
  (forall e,
     sorted_by_updated_at all_runs = inr e ->
     Metrics.last_success m' = Metrics.last_success m /\
     Metrics.last_failure m' = Metrics.last_failure m).
Proof.
  intros all_runs m m' Hne. subst all_runs m m'. split.
  - intros sorted_runs Hsort.
    destruct (sorted_runs_shape _ _ Hsort) as (Hperm & Hdesc & Hsettled).
    destruct (update_metrics_sorted st sorted_runs Hne Hsort) as (m2 & Hs & Hf & ->).
    split; [done|]. split; [done|]. simpl.
    rewrite scan_last_success, scan_last_failure, Hs, Hf by done.
    split; [done|]. split; [done|].
    split; intros r Hr.
    + destruct (head_filter_greatest _ _ _ Hdesc Hr) as (Hin & Hp & Hmax).
      rewrite <- Hperm. split; [done|]. split; [done|].
      intros r' Hr'. apply Hmax. by rewrite Hperm.
    + destruct (head_filter_greatest _ _ _ Hdesc Hr) as (Hin & Hp & Hmax).
      rewrite <- Hperm. split; [done|]. split; [done|].
      intros r' Hr'. apply Hmax. by rewrite Hperm.
  - intros e. apply update_metrics_sort_raises.
Qed.

Lemma last_success_is_greatest_updated_at_witness :
  let st := update_workflow_status fromisoformat_seconds example_config
              (Http 200
                 [example_run "Lint" 2 (Some "success")
                    "2024-01-01T10:05:00Z" "2024-01-01T10:06:00Z";
                  example_run "CI" 1 (Some "success")
                    "2024-01-01T10:00:00Z" "2024-01-01T10:30:00Z";
                  example_run "CI" 0 (Some "cancelled")
                    "2024-01-01T09:00:00Z" "2024-01-01T09:10:00Z"])
              initial_status in
  Metrics.last_success (metrics (update_metrics st)) = Some "2024-01-01T10:30:00Z" /\
  Metrics.last_failure (metrics (update_metrics st)) = Some "2024-01-01T09:10:00Z".
Proof.
  intros st.
  assert (Hne : flatten_runs (workflows st) <> []) by (vm_compute; discriminate).
  destruct (proj1 (last_success_is_greatest_updated_at st Hne)
              (sort_desc (flatten_runs (workflows st))) eq_refl)
    as (_ & _ & Hs & Hf & _).
  split.
  - rewrite Hs. vm_compute. reflexivity.
  - rewrite Hf. vm_compute. reflexivity.
Defined.

(** C1 (as stated) fails: the Lint run comes first in group order, the CI
    run was updated later, and [last_success] is the time of the CI run. *)
Lemma last_success_is_not_first_in_group_order :
  let st := update_workflow_status fromisoformat_seconds example_config
              (Http 200
                 [example_run "Lint" 2 (Some "success")
                    "2024-01-01T10:05:00Z" "2024-01-01T10:06:00Z";
                  example_run "CI" 1 (Some "success")
                    "2024-01-01T10:00:00Z" "2024-01-01T10:30:00Z"])
              initial_status in
  first_in_group_order is_success st = Some "2024-01-01T10:06:00Z" /\
  Metrics.last_success (metrics (update_metrics st)) = Some "2024-01-01T10:30:00Z" /\
  Metrics.last_success (metrics (update_metrics st)) <> first_in_group_order is_success st.
Proof.
  split; [|split].
  - vm_compute. reflexivity.
  - vm_compute. reflexivity.
  - vm_compute. discriminate.
Qed.

(** * Further properties of the monitor *)

(** ** Grouping keeps every run, once, under its own name *)

Lemma assoc_map_values {A B : Type} (f : A -> B) (k : string) (d : list (string * A)) :
  assoc k (map (fun kv => (fst kv, f (snd kv))) d) = f <$> assoc k d.
Proof.
  induction d as [|[k' v] d IH]; simpl; [done|].
  by destruct (String.eqb k k').
Qed.

Lemma map_values_keys {A B : Type} (f : A -> B) (d : list (string * A)) :
  map fst (map (fun kv => (fst kv, f (snd kv))) d) = map fst d.
Proof. induction d as [|[k v] d IH]; simpl; [done|]. by rewrite IH. Qed.

Lemma workflow_metrics_latest_run (w : Workflow.t) :
  Workflow.latest_run (workflow_metrics w) = Workflow.latest_run w.
Proof.
  unfold workflow_metrics. destruct (Workflow.recent_runs w); [done|].
  by destruct (filter is_completed _).
Qed.

(** X1. After a 200 response the workflow names of the document are
    distinct; a name has an entry exactly when one of the first ten runs of
    the response bears it, and the entry holds the summaries of the runs of
    that name in the order of the response, with the first of them as
    [latest_run]. *)
Theorem workflows_group_runs_by_name
    (fromisoformat : string -> option datetime) (cfg : config)
    (workflow_runs : list ApiRun.t) (st : pipeline_status) (name : string) :
  configured cfg = true ->
  let named := filter (fun r => ApiRun.name r = name) (firstn 10 workflow_runs) in
  let wfs := workflows (update_workflow_status fromisoformat cfg
                          (Http 200 workflow_runs) st) in
  NoDup (map fst wfs) /\
  match named with
  | [] => assoc name wfs = None
  | first :: _ =>
      exists wf, assoc name wfs = Some wf /\
                 Workflow.latest_run wf = first /\
                 Workflow.recent_runs wf = map (run_summary fromisoformat) named
  end.
Proof.
  intros Hcfg named wfs. subst wfs named.
  unfold update_workflow_status. rewrite Hcfg. simpl.
  rewrite map_values_keys, assoc_map_values, group_runs_assoc.
  split; [apply group_runs_keys_NoDup|].
  destruct (filter _ (firstn 10 workflow_runs)) as [|first rest]; [done|].
  simpl. eexists. split; [reflexivity|].
  by rewrite workflow_metrics_latest_run, workflow_metrics_recent_runs.
Qed.

Lemma workflows_group_runs_by_name_witness :
  let runs := [example_run "CI" 3 (Some "success") "2024-01-01T02:00:00Z" "2024-01-01T02:05:00Z";
               example_run "Lint" 2 (Some "failure") "2024-01-01T01:00:00Z" "2024-01-01T01:01:00Z";
               example_run "CI" 1 None "2024-01-01T00:00:00Z" "2024-01-01T00:00:00Z"] in
  NoDup (map fst (workflows (update_workflow_status fromisoformat_seconds example_config
                               (Http 200 runs) initial_status))).
Proof.
  intros runs.
  apply (workflows_group_runs_by_name fromisoformat_seconds example_config runs
           initial_status "CI").
  reflexivity.
Defined.

Lemma flatten_runs_app (a b : list (string * Workflow.t)) :
  flatten_runs (a ++ b) = flatten_runs a ++ flatten_runs b.
Proof. unfold flatten_runs. apply flat_map_app. Qed.

Lemma flatten_dict_set_new (k : string) (w : Workflow.t) (ws : list (string * Workflow.t)) :
  assoc k ws = None ->
  flatten_runs (dict_set k w ws) = flatten_runs ws ++ Workflow.recent_runs w.
Proof.
  induction ws as [|[k' w'] ws IH]; simpl.
  - intros _. unfold flatten_runs. simpl. by rewrite app_nil_r.
  - destruct (String.eqb k k'); [done|]. intros H.
    unfold flatten_runs in *. simpl. rewrite IH by done. by rewrite app_assoc.
Qed.

Lemma flatten_dict_set_append (k : string) (e : Workflow.t) (x : Run.t)
    (ws : list (string * Workflow.t)) :
  assoc k ws = Some e ->
  flatten_runs (dict_set k (Workflow.set_recent_runs (Workflow.recent_runs e ++ [x]) e) ws)
    ≡ₚ flatten_runs ws ++ [x].
Proof.
  induction ws as [|[k' w'] ws IH]; simpl; [done|].
  destruct (String.eqb k k').
  - intros [= ->]. unfold flatten_runs. simpl.
    rewrite <- !app_assoc. apply Permutation_app_head, Permutation_app_comm.
  - intros H. unfold flatten_runs in *. simpl. rewrite IH by done.
    by rewrite app_assoc.
Qed.

Lemma flatten_group_runs (fromisoformat : string -> option datetime) (runs : list ApiRun.t) :
  flatten_runs (group_runs fromisoformat runs) ≡ₚ map (run_summary fromisoformat) runs.
Proof.
  induction runs as [|r runs IH] using rev_ind; [done|].
  rewrite group_runs_snoc, map_app. unfold group_step. simpl.
  destruct (assoc (ApiRun.name r) (group_runs fromisoformat runs)) as [e|] eqn:E.
  - rewrite flatten_dict_set_append by done. by rewrite IH.
  - rewrite flatten_dict_set_new by done. simpl. by rewrite IH.
Qed.

Lemma flatten_workflow_metrics (ws : list (string * Workflow.t)) :
  flatten_runs (map (fun kv => (fst kv, workflow_metrics (snd kv))) ws) = flatten_runs ws.
Proof.
  unfold flatten_runs. induction ws as [|[k w] ws IH]; simpl; [done|].
  by rewrite IH, workflow_metrics_recent_runs.
Qed.

(** X2. After a 200 response the runs held by the document, over all its
    workflows, are the summaries of the first ten runs of the response, each
    exactly once: grouping loses and repeats nothing, and never more than ten
    runs are held. *)
Theorem workflows_hold_first_ten_runs
    (fromisoformat : string -> option datetime) (cfg : config)
    (workflow_runs : list ApiRun.t) (st : pipeline_status) :
  configured cfg = true ->
  let held := flatten_runs (workflows (update_workflow_status fromisoformat cfg
                                         (Http 200 workflow_runs) st)) in
  held ≡ₚ map (run_summary fromisoformat) (firstn 10 workflow_runs) /\
  length held = Nat.min 10 (length workflow_runs).
Proof.
  intros Hcfg held. subst held. unfold update_workflow_status. rewrite Hcfg. simpl.
  rewrite flatten_workflow_metrics.
  pose proof (flatten_group_runs fromisoformat (firstn 10 workflow_runs)) as Hp.
  split; [done|].
  by rewrite Hp, length_map, length_firstn.
Qed.

Lemma workflows_hold_first_ten_runs_witness :
  let runs := map (fun i => example_run "CI" i (Some "success")
                              "2024-01-01T00:00:00Z" "2024-01-01T00:05:00Z")
                  [1; 2; 3; 4; 5; 6; 7; 8; 9; 10; 11; 12] in
  length (flatten_runs (workflows (update_workflow_status fromisoformat_seconds
                                     example_config (Http 200 runs) initial_status)))
  = Nat.min 10 (length runs).
Proof.
  intros runs.
  apply (workflows_hold_first_ten_runs fromisoformat_seconds example_config runs
           initial_status).
  reflexivity.
Defined.

(** ** Each update keeps to its part of the document *)

(** X3. Whatever their inputs, the four updates of a cycle write one field
    each: the workflow update only [workflows], the pull-request update only
    [dependabot_prs], the security update only [security_status], and the
    rollup only [metrics]; none of them touches [last_update]. *)
Theorem updates_write_their_own_field
    (fromisoformat : string -> option datetime) (cfg : config) (reports_dir : string)
    (inp : poll_inputs) (st : pipeline_status) :
  update_workflow_status fromisoformat cfg (runs_response inp) st
    = set_workflows
        (workflows (update_workflow_status fromisoformat cfg (runs_response inp) st)) st /\
  update_dependabot_status cfg (pulls_response inp) st
    = set_dependabot_prs
        (dependabot_prs (update_dependabot_status cfg (pulls_response inp) st)) st /\
  update_security_status reports_dir (reports_listing inp) st
    = set_security_status
        (security_status (update_security_status reports_dir (reports_listing inp) st)) st /\
  update_metrics st = set_metrics (metrics (update_metrics st)) st /\
  last_update (poll_cycle fromisoformat cfg reports_dir inp st) = last_update st.
Proof.
  destruct st as [lu wfs prs sec m].
  assert (Hw : forall resp,
    update_workflow_status fromisoformat cfg resp (mk_status lu wfs prs sec m)
    = set_workflows (workflows (update_workflow_status fromisoformat cfg resp
                                  (mk_status lu wfs prs sec m)))
        (mk_status lu wfs prs sec m)).
  { intros resp. unfold update_workflow_status. destruct (configured cfg); [|done].
    destruct resp as [code body|]; [|done]. by destruct (code =? 200). }
  assert (Hd : forall resp s,
    update_dependabot_status cfg resp s
    = set_dependabot_prs (dependabot_prs (update_dependabot_status cfg resp s)) s).
  { intros resp [? ? ? ? ?]. unfold update_dependabot_status.
    destruct (configured cfg); [|done].
    destruct resp as [code body|]; [|done]. by destruct (code =? 200). }
  assert (Hs : forall listing s,
    update_security_status reports_dir listing s
    = set_security_status (security_status (update_security_status reports_dir listing s)) s).
  { intros listing [? ? ? ? ?]. unfold update_security_status.
    destruct listing as [entries|]; [|done].
    destruct (filter _ entries); [done|]. destruct (loaded _); [|done].
    by destruct (security_summary _ _). }
  assert (Hm : forall s, update_metrics s = set_metrics (metrics (update_metrics s)) s).
  { intros [? w ? ? ?]. unfold update_metrics. simpl.
    destruct w as [|kv w]; [done|]. destruct (flatten_runs (kv :: w)); [done|].
    by destruct (sorted_by_updated_at _). }
  split; [apply Hw|]. split; [apply Hd|]. split; [apply Hs|]. split; [apply Hm|].
  unfold poll_cycle. rewrite Hm, Hs, Hd, Hw. reflexivity.
Qed.

(** X4. A fetch that is not configured, does not answer 200, or fails on the
    way leaves the whole document as it was, for the workflow runs and for
    the pull requests alike. *)
Theorem failed_fetch_keeps_document
    (fromisoformat : string -> option datetime) (cfg : config)
    (runs : response (list ApiRun.t)) (pulls : response (list ApiPull.t))
    (st : pipeline_status) :
  (configured cfg = false \/ runs = Failed \/
   (exists code body, runs = Http code body /\ code <> 200) ->
   update_workflow_status fromisoformat cfg runs st = st) /\
  (configured cfg = false \/ pulls = Failed \/
   (exists code body, pulls = Http code body /\ code <> 200) ->
   update_dependabot_status cfg pulls st = st).
Proof.
  split; intros [H|[H|(code & body & H & Hne)]].
  - unfold update_workflow_status. by rewrite H.
  - unfold update_workflow_status. rewrite H. by destruct (configured cfg).
  - unfold update_workflow_status. rewrite H.
    destruct (configured cfg); [|done]. by destruct (Z.eqb_spec code 200).
  - unfold update_dependabot_status. by rewrite H.
  - unfold update_dependabot_status. rewrite H. by destruct (configured cfg).
  - unfold update_dependabot_status. rewrite H.
    destruct (configured cfg); [|done]. by destruct (Z.eqb_spec code 200).
Qed.

Lemma failed_fetch_keeps_document_witness :
  let st := example_cycle
              [example_run "CI" 1 (Some "success")
                 "2024-01-01T00:00:00Z" "2024-01-01T00:05:00Z"] initial_status in
  update_workflow_status fromisoformat_seconds example_config (Http 503 []) st = st.
Proof.
  intros st.
  refine (proj1 (failed_fetch_keeps_document fromisoformat_seconds example_config
                   (Http 503 []) Failed st) _).
  right. right. exists 503, []. split; [reflexivity|lia].
Defined.

(** ** Security reports: what the latest file decides *)

(** X5. Only the latest matching report is read. When it cannot be loaded,
    is not an object, or has a [summary] that is not an object, the security
    status is left as it was, whatever older reports hold. *)
Theorem unusable_latest_report_keeps_status
    (reports_dir : string) (entries : list report_file) (first : report_file)
    (others : list report_file) (st : pipeline_status) :
  filter (fun f => glob_match (file_name f)) entries = first :: others ->
  let latest := max_by_mtime first others in
  (loaded latest = None \/
   (exists v, loaded latest = Some v /\ forall items, v <> JDict items) \/
   (exists items v, loaded latest = Some (JDict items) /\
                    assoc "summary" items = Some v /\ forall s, v <> JDict s)) ->
  update_security_status reports_dir (Some entries) st = st.
Proof.
  intros Hf latest H. unfold update_security_status. rewrite Hf. fold latest.
  destruct H as [H|[(v & H & Hv)|(items & v & H & Hs & Hv)]]; rewrite H.
  - done.
  - destruct v; try done. by destruct (Hv items).
  - unfold security_summary, bind, py_get. rewrite Hs.
    destruct (assoc "timestamp" items); destruct v; try done; by destruct (Hv items0).
Qed.

Lemma unusable_latest_report_keeps_status_witness :
  let good := mk_report "security-report-1.json" 100
                (Some (JDict [("summary", JDict [("status", JStr "CLEAN")])])) in
  let bad := mk_report "security-report-2.json" 200 None in
  update_security_status "docs/security-reports/combined" (Some [good; bad]) initial_status
  = initial_status.
Proof.
  intros good bad.
  apply (unusable_latest_report_keeps_status "docs/security-reports/combined"
           [good; bad] good [bad] initial_status).
  - reflexivity.
  - left. reflexivity.
Defined.

(** X6. A latest report that is an object without a [summary] gives the
    status UNKNOWN with 0 vulnerabilities, and a report without [timestamp]
    gives no scan time. *)
Theorem report_without_summary_is_unknown
    (reports_dir : string) (entries : list report_file) (first : report_file)
    (others : list report_file) (items : list (string * json)) (st : pipeline_status) :
  filter (fun f => glob_match (file_name f)) entries = first :: others ->
  loaded (max_by_mtime first others) = Some (JDict items) ->
  assoc "summary" items = None ->
  security_status (update_security_status reports_dir (Some entries) st) =
    [("last_scan", default JNull (assoc "timestamp" items));
     ("total_vulnerabilities", JInt 0);
     ("status", JStr "UNKNOWN");
     ("report_file", JStr (reports_dir +:+ "/" +:+ file_name (max_by_mtime first others)))].
Proof.
  intros Hf Hl Hs. unfold update_security_status. rewrite Hf, Hl.
  unfold security_summary, bind, py_get. rewrite Hs. simpl.
  by destruct (assoc "timestamp" items).
Qed.

Lemma report_without_summary_is_unknown_witness :
  let f := mk_report "security-report-1.json" 100 (Some (JDict [])) in
  assoc "status" (security_status
    (update_security_status "docs/security-reports/combined" (Some [f]) initial_status))
  = Some (JStr "UNKNOWN").
Proof.
  intros f.
  rewrite (report_without_summary_is_unknown "docs/security-reports/combined"
             [f] f [] [] initial_status eq_refl eq_refl eq_refl).
  reflexivity.
Defined.

(** X7. Among matching reports of equal greatest modification time the one
    that comes first in the listing is taken: every report before the chosen
    one is strictly older, every one after it is not newer. *)
Theorem latest_report_is_first_of_the_newest
    (first : report_file) (others : list report_file) :
  exists before after,
    first :: others = before ++ max_by_mtime first others :: after /\
    Forall (fun f => st_mtime f < st_mtime (max_by_mtime first others)) before /\
    Forall (fun f => st_mtime f <= st_mtime (max_by_mtime first others)) after.
Proof.
  revert first. induction others as [|f rest IH]; intros best; simpl.
  - exists [], []. by repeat split.
  - pose proof (max_by_mtime_ge_best (if st_mtime best <? st_mtime f then f else best) rest)
      as Hge.
    destruct (Z.ltb_spec (st_mtime best) (st_mtime f)) as [Hlt|Hle].
    + destruct (IH f) as (before & after & Heq & Hb & Ha).
      exists (best :: before), after. rewrite Heq. split; [done|]. split; [|done].
      constructor; [lia|done].
    + destruct (IH best) as (before & after & Heq & Hb & Ha).
      remember (max_by_mtime best rest) as m eqn:Em.
      destruct before as [|b before]; simpl in Heq.
      * injection Heq as Hbest Hrest. subst m rest.
        exists [], (f :: after). split; [by rewrite <- Hbest|]. split; [done|].
        constructor; [lia|done].
      * injection Heq as Hbest Hrest. subst b rest.
        exists (best :: f :: before), after. split; [done|].
        apply Forall_cons in Hb as [Hb1 Hb2]. split; [|done].
        constructor; [done|]. constructor; [lia|done].
Qed.

(** ** Rollup: a failed sort, and fields already set *)

Lemma sorted_by_updated_at_raises (all_runs : list Run.t) :
  (2 <= length all_runs)%nat ->
  (exists r, r ∈ all_runs /\ Run.updated_at r = None) ->
  sorted_by_updated_at all_runs = inr TypeError.
Proof.
  intros Hlen (r & Hin & Hr). unfold sorted_by_updated_at.
  assert (H1 : (2 <=? length all_runs)%nat = true) by by apply Nat.leb_le.
  assert (H2 : existsb (fun r => is_None (Run.updated_at r)) all_runs = true).
  { apply existsb_exists. exists r. split; [by apply list_elem_of_In|]. by rewrite Hr. }
  by rewrite H1, H2.
Qed.

(** X8. When two or more runs are held and one of them has no [updated_at],
    the rollup stops at the sort: the success rate is already that of the
    runs held, while [total_runs], [last_success] and [last_failure] keep the
    values of the cycle before. *)
Theorem rollup_stops_at_a_missing_updated_at (st : pipeline_status) :
  let all_runs := flatten_runs (workflows st) in
  (2 <= length all_runs)%nat ->
  (exists r, r ∈ all_runs /\ Run.updated_at r = None) ->
  Metrics.success_rate (metrics (update_metrics st)) = success_rate_of all_runs /\
  Metrics.total_runs (metrics (update_metrics st)) = Metrics.total_runs (metrics st) /\
  Metrics.last_success (metrics (update_metrics st)) = Metrics.last_success (metrics st) /\
  Metrics.last_failure (metrics (update_metrics st)) = Metrics.last_failure (metrics st).
Proof.
  intros all_runs Hlen Hnone. subst all_runs.
  pose proof (sorted_by_updated_at_raises _ Hlen Hnone) as Hsort.
  split.
  { apply update_metrics_success_rate. intros E. rewrite E in Hlen. simpl in Hlen. lia. }
  split; [|by apply (update_metrics_sort_raises st TypeError)].
  unfold update_metrics.
  destruct (workflows st) as [|kv wfs] eqn:Ew; [done|].
  destruct (flatten_runs (kv :: wfs)) as [|r rs] eqn:Ef; [done|].
  rewrite Hsort. simpl. by destruct (filter is_completed (r :: rs)).
Qed.

Lemma rollup_stops_at_a_missing_updated_at_witness :
  let st := update_workflow_status fromisoformat_seconds example_config
              (Http 200 [example_run "CI" 2 (Some "success")
                           "2024-01-01T01:00:00Z" "2024-01-01T01:05:00Z";
                         ApiRun.mk "CI" 1 (Some "queued") None
                           (Some "2024-01-01T00:00:00Z") None])
              initial_status in
  Metrics.total_runs (metrics (update_metrics st)) = 0 /\
  Metrics.last_success (metrics (update_metrics st)) = None.
Proof.
  intros st.
  assert (H := rollup_stops_at_a_missing_updated_at st).
  destruct H as (_ & Ht & Hs & _).
  - vm_compute. lia.
  - exists (Run.mk 1 (Some "queued") None (Some "2024-01-01T00:00:00Z") None 0).
    split; [|reflexivity]. vm_compute. apply list_elem_of_further, list_elem_of_here.
  - by rewrite Ht, Hs.
Defined.

Lemma scan_keeps_set_fields (l : list Run.t) (m : Metrics.t) :
  (truthy (Metrics.last_success m) = true ->
   Metrics.last_success (fold_left scan_step l m) = Metrics.last_success m) /\
  (truthy (Metrics.last_failure m) = true ->
   Metrics.last_failure (fold_left scan_step l m) = Metrics.last_failure m).
Proof.
  revert m. induction l as [|r l IH]; intros m; [done|]. simpl.
  destruct (IH (scan_step m r)) as [IHs IHf]. unfold scan_step in *. split; intros Ht.
  - rewrite Ht in *. rewrite andb_false_r in *.
    destruct (is_failure r && negb (truthy (Metrics.last_failure m))); by rewrite IHs.
  - rewrite Ht in *. rewrite andb_false_r in *.
    destruct (is_success r && negb (truthy (Metrics.last_success m))); by rewrite IHf.
Qed.

Lemma update_metrics_keeps_set_fields (st : pipeline_status) :
  (truthy (Metrics.last_success (metrics st)) = true ->
   Metrics.last_success (metrics (update_metrics st)) = Metrics.last_success (metrics st)) /\
  (truthy (Metrics.last_failure (metrics st)) = true ->
   Metrics.last_failure (metrics (update_metrics st)) = Metrics.last_failure (metrics st)).
Proof.
  unfold update_metrics.
  destruct (workflows st) as [|kv wfs] eqn:Ew; [done|].
  destruct (flatten_runs (kv :: wfs)) as [|r rs] eqn:Ef; [done|].
  destruct (sorted_by_updated_at (r :: rs)) as [sorted_runs|e]; simpl.
  - match goal with |- context [fold_left scan_step sorted_runs ?m2] =>
      destruct (scan_keeps_set_fields sorted_runs m2) as [Hs Hf];
      assert (Metrics.last_success m2 = Metrics.last_success (metrics st) /\
              Metrics.last_failure m2 = Metrics.last_failure (metrics st)) as [Es Ef']
        by (by destruct (filter is_completed (r :: rs)))
    end.
    rewrite Es in Hs. rewrite Ef' in Hf. done.
  - by destruct (filter is_completed (r :: rs)).
Qed.

(** X9. Once [last_success] (or [last_failure]) holds a non-empty time, no
    later poll cycle changes it, whatever runs the later cycles bring: the
    field records the first cycle that saw such a run, not the latest. *)
Theorem set_timestamps_survive_every_cycle
    (fromisoformat : string -> option datetime) (cfg : config) (reports_dir : string)
    (inp : poll_inputs) (st : pipeline_status) :
  (truthy (Metrics.last_success (metrics st)) = true ->
   Metrics.last_success (metrics (poll_cycle fromisoformat cfg reports_dir inp st))
     = Metrics.last_success (metrics st)) /\
  (truthy (Metrics.last_failure (metrics st)) = true ->
   Metrics.last_failure (metrics (poll_cycle fromisoformat cfg reports_dir inp st))
     = Metrics.last_failure (metrics st)).
Proof.
  unfold poll_cycle.
  set (st3 := update_security_status _ _ _).
  assert (Hm : metrics st3 = metrics st).
  { subst st3. rewrite (proj2 (update_security_status_keeps _ _ _)).
    rewrite (proj2 (update_dependabot_status_keeps _ _ _)).
    apply update_workflow_status_metrics. }
  destruct (update_metrics_keeps_set_fields st3) as [Hs Hf].
  rewrite Hm in Hs, Hf. done.
Qed.

Lemma set_timestamps_survive_every_cycle_witness :
  let st1 := example_cycle
               [example_run "CI" 1 (Some "success")
                  "2024-01-01T00:00:00Z" "2024-01-01T00:05:00Z"] initial_status in
  let st2 := example_cycle
               [example_run "CI" 2 (Some "success")
                  "2024-06-01T00:00:00Z" "2024-06-01T00:05:00Z"] st1 in
  Metrics.last_success (metrics st2) = Some "2024-01-01T00:05:00Z".
Proof.
  intros st1 st2.
  refine (eq_trans (proj1 (set_timestamps_survive_every_cycle fromisoformat_seconds
            example_config "docs/security-reports/combined"
            (mk_inputs (Http 200 [example_run "CI" 2 (Some "success")
                                    "2024-06-01T00:00:00Z" "2024-06-01T00:05:00Z"])
                       Failed None) st1) _) _).
  - vm_compute. reflexivity.
  - vm_compute. reflexivity.
Defined.

(** ** What every reachable document satisfies *)

Lemma Qnat_nonneg (n : nat) : (0 <= Qnat n)%Q.
Proof. unfold Qnat. rewrite <- (Zle_Qle 0). lia. Qed.

Lemma Qdiv_nonneg (a b : Q) : (0 <= a)%Q -> (0 <= b)%Q -> (0 <= a / b)%Q.
Proof.
  intros Ha Hb. unfold Qdiv. apply Qmult_le_0_compat; [done|].
  by apply Qinv_le_0_compat.
Qed.

Lemma success_rate_of_bounds (runs : list Run.t) :
  (0 <= success_rate_of runs <= 100)%Q.
Proof.
  unfold success_rate_of.
  pose proof (length_filter is_success runs) as Hle.
  split.
  - apply Qmult_le_0_compat; [|done].
    apply Qdiv_nonneg; apply Qnat_nonneg.
  - destruct (length runs) as [|n] eqn:En.
    + assert (length (filter is_success runs) = 0)%nat as -> by lia. done.
    + apply (Qle_trans _ (1 * 100)); [|done].
      apply Qmult_le_compat_r; [|done].
      apply Qle_shift_div_r.
      * unfold Qnat. rewrite <- (Zlt_Qlt 0). lia.
      * rewrite Qmult_1_l. unfold Qnat. rewrite <- Zle_Qle. lia.
Qed.

Lemma sum_duration_completed (runs : list Run.t) :
  0 <= sum_duration (filter is_completed runs).
Proof.
  induction runs as [|r runs IH]; [done|].
  rewrite filter_cons. case_decide as Hc; [|done].
  unfold is_completed in Hc. apply Is_true_true, Z.ltb_lt in Hc. simpl. lia.
Qed.

Lemma avg_duration_of_completed_nonneg (runs : list Run.t) :
  (0 <= avg_duration_of (filter is_completed runs))%Q.
Proof.
  unfold avg_duration_of. apply Qdiv_nonneg; [|apply Qnat_nonneg].
  rewrite <- (Zle_Qle 0). apply sum_duration_completed.
Qed.

Lemma update_metrics_total_runs (st : pipeline_status) :
  Metrics.total_runs (metrics (update_metrics st)) = Metrics.total_runs (metrics st) \/
  Metrics.total_runs (metrics (update_metrics st))
    = Z.of_nat (length (flatten_runs (workflows st))).
Proof.
  unfold update_metrics.
  destruct (workflows st) as [|kv wfs] eqn:Ew; [by left|].
  destruct (flatten_runs (kv :: wfs)) as [|r rs] eqn:Ef; [by left|].
  destruct (sorted_by_updated_at (r :: rs)); simpl; [by right|].
  left. by destruct (filter is_completed (r :: rs)).
Qed.

Lemma update_workflow_status_shape (fromisoformat : string -> option datetime)
    (cfg : config) (resp : response (list ApiRun.t)) (st : pipeline_status) :
  NoDup (map fst (workflows st)) ->
  (length (flatten_runs (workflows st)) <= 10)%nat ->
  NoDup (map fst (workflows (update_workflow_status fromisoformat cfg resp st))) /\
  (length (flatten_runs (workflows (update_workflow_status fromisoformat cfg resp st)))
   <= 10)%nat.
Proof.
  intros Hnd Hlen. unfold update_workflow_status.
  destruct (configured cfg); [|done]. destruct resp as [code runs|]; [|done].
  destruct (code =? 200); [|done]. simpl.
  rewrite map_values_keys, flatten_workflow_metrics, flatten_group_runs.
  split; [apply group_runs_keys_NoDup|].
  rewrite length_map, length_firstn. lia.
Qed.

Lemma poll_cycle_parts (fromisoformat : string -> option datetime) (cfg : config)
    (reports_dir : string) (inp : poll_inputs) (st : pipeline_status) :
  exists st3,
    poll_cycle fromisoformat cfg reports_dir inp st = update_metrics st3 /\
    workflows st3
      = workflows (update_workflow_status fromisoformat cfg (runs_response inp) st) /\
    metrics st3 = metrics st.
Proof.
  unfold poll_cycle. eexists. split; [reflexivity|]. split.
  - rewrite (proj1 (update_security_status_keeps _ _ _)).
    apply update_dependabot_status_keeps.
  - rewrite (proj2 (update_security_status_keeps _ _ _)).
    rewrite (proj2 (update_dependabot_status_keeps _ _ _)).
    apply update_workflow_status_metrics.
Qed.

(** X10. Every document the monitor can reach from its initial one, by poll
    cycles with any inputs and by time stamps, has distinct workflow names,
    workflows whose derived fields are those of their own runs, at most ten
    runs held, a success rate between 0 and 100, a non-negative average
    duration (although single durations may be negative), and a run count
    between 0 and 10. *)
Theorem reachable_documents_are_well_formed
    (fromisoformat : string -> option datetime) (cfg : config) (reports_dir : string)
    (st : pipeline_status) :
  reachable fromisoformat cfg reports_dir st -> well_formed st.
Proof.
  induction 1 as [|st inp Hr IH|st now Hr IH].
  - unfold well_formed. simpl. split; [constructor|]. split; [constructor|].
    split; [lia|]. split; [done|]. split; [done|lia].
  - destruct IH as (Hnd & Hder & Hlen & Hsr & Havg & Htot).
    destruct (poll_cycle_parts fromisoformat cfg reports_dir inp st)
      as (st3 & -> & Hw3 & Hm3).
    destruct (update_workflow_status_shape fromisoformat cfg (runs_response inp) st Hnd Hlen)
      as [Hnd' Hlen'].
    rewrite <- Hw3 in Hnd', Hlen'.
    unfold well_formed. rewrite update_metrics_workflows.
    split; [done|]. split.
    { rewrite Hw3. by apply update_workflow_status_derived. }
    split; [done|].
    split; [|split].
    + destruct (flatten_runs (workflows st3)) eqn:E.
      * rewrite update_metrics_no_runs by done. by rewrite Hm3.
      * rewrite update_metrics_success_rate by (by rewrite E).
        apply success_rate_of_bounds.
    + rewrite update_metrics_avg_duration.
      destruct (filter is_completed (flatten_runs (workflows st3))) eqn:E.
      * by rewrite Hm3.
      * rewrite <- E. apply avg_duration_of_completed_nonneg.
    + destruct (update_metrics_total_runs st3) as [->| ->]; [by rewrite Hm3|lia].
  - destruct IH as (Hnd & Hder & Hlen & Hsr & Havg & Htot). by destruct st.
Qed.

Lemma reachable_documents_are_well_formed_witness :
  well_formed
    (example_cycle
       [example_run "CI" 1 (Some "success") "2024-01-01T00:00:10Z" "2024-01-01T00:00:00Z"]
       initial_status).
Proof.
  apply (reachable_documents_are_well_formed fromisoformat_seconds example_config
           "docs/security-reports/combined").
  apply reachable_cycle, reachable_init.
Defined.

(** ** A viewer's session *)

Lemma send_frame (ws : nat) (m : server_msg) (n n' : gmap nat connection) :
  send ws m n = inl n' ->
  exists ds, n !! ws = Some (mk_conn Open ds) /\
             n' = <[ws := mk_conn Open (ds ++ [m])]> n.
Proof.
  unfold send. destruct (n !! ws) as [[s ds]|] eqn:E; [|done].
  destruct s; simpl; [|done..]. intros [= <-]. by exists ds.
Qed.

Lemma only_delivers_to_refl (ws : nat) (σ : server) : only_delivers_to ws σ σ.
Proof.
  split; [done|]. split; [done|]. split; [done|]. split; [|done].
  intros [s ds] H. exists []. by rewrite app_nil_r.
Qed.

Lemma only_delivers_to_trans (ws : nat) (σ1 σ2 σ3 : server) :
  only_delivers_to ws σ1 σ2 -> only_delivers_to ws σ2 σ3 -> only_delivers_to ws σ1 σ3.
Proof.
  intros (Hs & Hc & Ho & Hd & Hn) (Hs' & Hc' & Ho' & Hd' & Hn').
  split; [congruence|]. split; [congruence|].
  split; [intros c Hne; rewrite Ho' by done; by apply Ho|].
  split.
  - intros conn H. destruct (Hd conn H) as [more H2].
    destruct (Hd' _ H2) as [more' H3]. simpl in H3.
    exists (more ++ more'). by rewrite app_assoc.
  - intros H. by apply Hn', Hn.
Qed.

Lemma send_only_delivers (ws : nat) (m : server_msg) (σ : server)
    (n' : gmap nat connection) :
  send ws m (net σ) = inl n' ->
  only_delivers_to ws σ (mk_server (status σ) (clients σ) n').
Proof.
  intros (ds & Hws & ->)%send_frame.
  split; [done|]. split; [done|]. simpl.
  split; [intros c Hne; by rewrite lookup_insert_ne|].
  split.
  - intros conn Hc. rewrite Hws in Hc. injection Hc as <-.
    exists [m]. by rewrite lookup_insert_eq.
  - intros Hc. by rewrite Hws in Hc.
Qed.

Lemma on_message_only_delivers (ws : nat) (loads : json + exn) (σ : server) :
  only_delivers_to ws σ (snd (on_message ws loads σ)).
Proof.
  unfold on_message, handle_client_message.
  destruct loads as [data|e].
  - destruct (py_get data "type" JNull) as [ty|e]; [|apply only_delivers_to_refl].
    destruct (json_eq_str ty "ping").
    + destruct (send ws Pong (net σ)) eqn:E; simpl;
        [apply (send_only_delivers _ _ _ _ E)|apply only_delivers_to_refl].
    + destruct (json_eq_str ty "request_status"); [|apply only_delivers_to_refl].
      destruct (send ws _ (net σ)) eqn:E; simpl;
        [apply (send_only_delivers _ _ _ _ E)|apply only_delivers_to_refl].
  - destruct e; try apply only_delivers_to_refl.
    destruct (send ws _ (net σ)) eqn:E; simpl;
      [apply (send_only_delivers _ _ _ _ E)|apply only_delivers_to_refl].
Qed.

Lemma receive_loop_only_delivers (ws : nat) (inbound : list (json + exn)) (σ : server) :
  only_delivers_to ws σ (snd (receive_loop ws inbound σ)).
Proof.
  revert σ. induction inbound as [|m rest IH]; intros σ; simpl.
  - apply only_delivers_to_refl.
  - pose proof (on_message_only_delivers ws m σ) as H.
    destruct (on_message ws m σ) as [[[]|e] σ']; simpl in *; [|done].
    eapply only_delivers_to_trans; [exact H|apply IH].
Qed.

(** X11. However a viewer's session goes (any inbound messages, any state
    of its connection), when [handle_client] is over the viewer is not
    registered and its connection is not open; the document, the other
    registrations and the other connections are as before; and what had been
    delivered to the viewer before is still the beginning of what it got. *)
Theorem handle_client_always_cleans_up
    (ws : nat) (inbound : list (json + exn)) (σ : server) :
  let σ' := snd (handle_client ws inbound σ) in
  status σ' = status σ /\
  (ws ∉ clients σ') /\
  is_open (net σ') ws = false /\
  (forall c, c ≠ ws -> (c ∈ clients σ' <-> c ∈ clients σ) /\ net σ' !! c = net σ !! c) /\
  (forall conn, net σ !! ws = Some conn ->
     exists more, net σ' !! ws = Some (mk_conn Closed (delivered conn ++ more))).
Proof.
  intros σ'. subst σ'. unfold handle_client.
  set (σ0 := mk_server (status σ) ({[ws]} ∪ clients σ) (net σ)).
  assert (H1 : exists r σ1,
     match send ws (InitialStatus (status σ0)) (net σ0) with
     | inl n' => receive_loop ws inbound (mk_server (status σ0) (clients σ0) n')
     | inr e => (inr e, σ0)
     end = (r, σ1) /\ only_delivers_to ws σ0 σ1).
  { destruct (send ws _ (net σ0)) as [n'|e] eqn:E.
    - pose proof (receive_loop_only_delivers ws inbound
                    (mk_server (status σ0) (clients σ0) n')) as Hl.
      destruct (receive_loop ws inbound _) as [r σ1]. exists r, σ1. split; [done|].
      eapply only_delivers_to_trans; [apply (send_only_delivers _ _ _ _ E)|exact Hl].
    - exists (inr e), σ0. split; [done|apply only_delivers_to_refl]. }
  destruct H1 as (r & σ1 & -> & Hs & Hc & Ho & Hd & Hn). simpl.
  split; [done|]. split.
  { intros [_ Hx]%elem_of_difference. apply Hx. by apply elem_of_singleton. }
  split.
  { unfold is_open, close_connection.
    destruct (net σ1 !! ws) as [c|] eqn:E; [by rewrite lookup_insert_eq|by rewrite E]. }
  split.
  - intros c Hne. split.
    + rewrite elem_of_difference, Hc, elem_of_singleton. simpl.
      rewrite elem_of_union, elem_of_singleton. tauto.
    + unfold close_connection. destruct (net σ1 !! ws); [|by apply Ho].
      rewrite lookup_insert_ne by done. by apply Ho.
  - intros conn Hconn. destruct (Hd conn Hconn) as [more Hm].
    exists more. unfold close_connection. rewrite Hm. by rewrite lookup_insert_eq.
Qed.

Lemma handle_client_always_cleans_up_witness :
  let σ := mk_server initial_status {[2%nat]}
             (<[1%nat := mk_conn Open []]> {[2%nat := mk_conn Open [Pong]]}) in
  let σ' := snd (handle_client 1%nat [inl (JInt 42); inr JSONDecodeError] σ) in
  net σ' !! 2%nat = net σ !! 2%nat.
Proof.
  intros σ σ'.
  destruct (handle_client_always_cleans_up 1%nat [inl (JInt 42); inr JSONDecodeError] σ)
    as (_ & _ & _ & Hother & _).
  apply (Hother 2%nat). lia.
Defined.

Lemma on_message_survivable (ws : nat) (loads : json + exn) (σ : server)
    (ds : list server_msg) :
  net σ !! ws = Some (mk_conn Open ds) ->
  survivable loads ->
  exists n',
    on_message ws loads σ = (inl tt, mk_server (status σ) (clients σ) n') /\
    n' !! ws = Some (mk_conn Open (ds ++ reply_to (status σ) loads)) /\
    (forall c, c ≠ ws -> n' !! c = net σ !! c).
Proof.
  intros Hws [->|[items ->]]; unfold on_message, handle_client_message, reply_to.
  - unfold send. rewrite Hws. simpl. eexists. split; [reflexivity|].
    split; [by rewrite lookup_insert_eq|]. intros c Hne. by rewrite lookup_insert_ne.
  - rewrite py_get_dict.
    destruct (json_eq_str _ "ping").
    + unfold send. rewrite Hws. simpl. eexists. split; [reflexivity|].
      split; [by rewrite lookup_insert_eq|]. intros c Hne. by rewrite lookup_insert_ne.
    + destruct (json_eq_str _ "request_status").
      * unfold send. rewrite Hws. simpl. eexists. split; [reflexivity|].
        split; [by rewrite lookup_insert_eq|]. intros c Hne. by rewrite lookup_insert_ne.
      * exists (net σ). split; [by destruct σ|]. split; [by rewrite app_nil_r|done].
Qed.

Lemma receive_loop_survivable (ws : nat) (inbound : list (json + exn)) (σ : server)
    (ds : list server_msg) :
  net σ !! ws = Some (mk_conn Open ds) ->
  Forall survivable inbound ->
  exists n',
    receive_loop ws inbound σ = (inl tt, mk_server (status σ) (clients σ) n') /\
    n' !! ws = Some (mk_conn Open (ds ++ flat_map (reply_to (status σ)) inbound)).
Proof.
  intros Hws Hall. revert σ ds Hws.
  induction Hall as [|m rest Hm Hrest IH]; intros σ ds Hws; simpl.
  - exists (net σ). split; [by destruct σ|]. by rewrite app_nil_r.
  - destruct (on_message_survivable ws m σ ds Hws Hm) as (n1 & -> & H1 & _).
    destruct (IH (mk_server (status σ) (clients σ) n1) _ H1) as (n2 & -> & H2).
    simpl in *. exists n2. split; [done|]. by rewrite H2, <- app_assoc.
Qed.

(** X12. A viewer on an open connection whose messages are all either
    undecodable text or JSON objects is served to the end without an
    exception: it is sent the initial document, then for each message in
    turn an error for undecodable text, a pong for a ping, the current
    document for a status request and nothing for any other object; then its
    connection is closed. *)
Theorem well_behaved_session_is_answered_in_order
    (ws : nat) (inbound : list (json + exn)) (σ : server) (ds : list server_msg) :
  net σ !! ws = Some (mk_conn Open ds) ->
  Forall survivable inbound ->
  fst (handle_client ws inbound σ) = None /\
  net (snd (handle_client ws inbound σ)) !! ws =
    Some (mk_conn Closed
            (ds ++ InitialStatus (status σ) :: flat_map (reply_to (status σ)) inbound)).
Proof.
  intros Hws Hall. unfold handle_client, send. simpl. rewrite Hws. simpl.
  destruct (receive_loop_survivable ws inbound
              (mk_server (status σ) ({[ws]} ∪ clients σ)
                 (<[ws := mk_conn Open (ds ++ [InitialStatus (status σ)])]> (net σ)))
              (ds ++ [InitialStatus (status σ)]))
    as (n' & -> & Hn'); [simpl; by rewrite lookup_insert_eq|done|].
  simpl in *. split; [done|].
  unfold close_connection. rewrite Hn', lookup_insert_eq. by rewrite <- app_assoc.
Qed.

Lemma well_behaved_session_is_answered_in_order_witness :
  let σ := mk_server initial_status ∅ {[1%nat := mk_conn Open []]} in
  net (snd (handle_client 1%nat
              [inl (JDict [("type", JStr "ping")]); inr JSONDecodeError;
               inl (JDict [("type", JStr "hello")]);
               inl (JDict [("type", JStr "request_status")])] σ)) !! 1%nat
  = Some (mk_conn Closed
            [InitialStatus initial_status; Pong; ErrorMsg "Invalid JSON";
             StatusUpdate initial_status]).
Proof.
  intros σ.
  refine (proj2 (well_behaved_session_is_answered_in_order 1%nat
            [inl (JDict [("type", JStr "ping")]); inr JSONDecodeError;
             inl (JDict [("type", JStr "hello")]);
             inl (JDict [("type", JStr "request_status")])] σ [] _ _)).
  - reflexivity.
  - rewrite !Forall_cons.
    split; [right; by eexists|]. split; [by left|].
    split; [right; by eexists|]. split; [right; by eexists|apply Forall_nil_2].
Defined.

(** ** The registry after a broadcast, and the connections at shutdown *)



Lemma close_step_spec (n : gmap nat connection) (x : nat) :
  let n' := match close x n with
            | inl n' => n'
            | inr _ => n
            end in
  (forall c, c ≠ x -> n' !! c = n !! c) /\
  is_open n' x = false /\
  (forall c conn, n !! c = Some conn ->
     exists conn', n' !! c = Some conn' /\ delivered conn' = delivered conn /\
                   (state conn <> Open -> state conn' <> Open)).
Proof.
  unfold close, is_open. destruct (n !! x) as [[s ds]|] eqn:E; simpl.
  - destruct s; simpl.
    + split; [intros c Hne; by rewrite lookup_insert_ne|].
      split; [by rewrite lookup_insert_eq|].
      intros c conn Hc. destruct (decide (c = x)) as [->|Hne].
      * rewrite lookup_insert_eq. eexists. split; [done|].
        rewrite E in Hc. injection Hc as <-. done.
      * rewrite lookup_insert_ne by done. exists conn. done.
    + split; [intros c Hne; by rewrite lookup_insert_ne|].
      split; [by rewrite lookup_insert_eq|].
      intros c conn Hc. destruct (decide (c = x)) as [->|Hne].
      * rewrite lookup_insert_eq. eexists. split; [done|].
        rewrite E in Hc. injection Hc as <-. done.
      * rewrite lookup_insert_ne by done. exists conn. done.
    + split; [done|]. split; [by rewrite E|].
      intros c conn Hc. by exists conn.
  - split; [done|]. split; [by rewrite E|]. intros c conn Hc. by exists conn.
Qed.

Lemma close_loop_spec (l : list nat) (n : gmap nat connection) :
  let n' := foldl (fun n c => match close c n with
                              | inl n' => n'
                              | inr _ => n
                              end) n l in
  (forall c, c ∉ l -> n' !! c = n !! c) /\
  (forall c, c ∈ l -> is_open n' c = false) /\
  (forall c conn, n !! c = Some conn ->
     exists conn', n' !! c = Some conn' /\ delivered conn' = delivered conn /\
                   (state conn <> Open -> state conn' <> Open)).
Proof.
  revert n. induction l as [|x l IH]; intros n; simpl.
  - split; [done|]. split; [by intros c []%elem_of_nil|].
    intros c conn Hc. by exists conn.
  - destruct (close_step_spec n x) as (Hother & Hx & Hkeep).
    set (n1 := match close x n with inl n' => n' | inr _ => n end) in *.
    destruct (IH n1) as (Hout & Hin & Hkeep').
    split; [|split].
    + intros c [Hne Hl]%not_elem_of_cons. rewrite Hout by done. by apply Hother.
    + intros c [->|Hc]%elem_of_cons; [|by apply Hin].
      destruct (decide (x ∈ l)) as [Hxl|Hxl]; [by apply Hin|].
      unfold is_open in *. by rewrite Hout.
    + intros c conn Hc. destruct (Hkeep c conn Hc) as (c1 & H1 & Hd1 & Hs1).
      destruct (Hkeep' c c1 H1) as (c2 & H2 & Hd2 & Hs2).
      exists c2. split; [done|]. split; [congruence|]. auto.
Qed.

(** X14. When [shutdown] has run, no viewer that was registered when it
    began is left with an open connection; what had been delivered to each
    viewer stays on record, and connections of viewers that were not
    registered are not touched. *)
Theorem shutdown_closes_every_registered_viewer (σ : server) :
  (forall c, c ∈ clients σ -> is_open (shutdown σ) c = false) /\
  (forall c, c ∉ clients σ -> shutdown σ !! c = net σ !! c) /\
  (forall c conn, net σ !! c = Some conn ->
     exists conn', shutdown σ !! c = Some conn' /\
                   delivered conn' = delivered conn).
Proof.
  unfold shutdown.
  destruct (close_loop_spec (elements (clients σ)) (net σ)) as (Hout & Hin & Hkeep).
  split; [intros c Hc; by apply Hin, elem_of_elements|].
  split; [intros c Hc; apply Hout; by rewrite elem_of_elements|].
  intros c conn Hc. destruct (Hkeep c conn Hc) as (conn' & H1 & H2 & _). by exists conn'.
Qed.

Lemma shutdown_closes_every_registered_viewer_witness :
  let σ := mk_server initial_status {[1%nat; 2%nat]}
             (<[1%nat := mk_conn Open [Pong]]> {[2%nat := mk_conn Broken []]}) in
  is_open (shutdown σ) 1%nat = false.
Proof.
  intros σ.
  apply (proj1 (shutdown_closes_every_registered_viewer σ) 1%nat).
  vm_compute. reflexivity.
Defined.

(** ** One turn of the monitoring loop *)



(** ** The dashboard page *)

Lemma failures_after_onopen (k : nat) (c : Dashboard.t) :
  Dashboard.failures k (Dashboard.onopen c)
  = Dashboard.mk 1000 (Dashboard.maxReconnectDelay c) (Z.of_nat k).
Proof.
  induction k as [|k IH]; [done|].
  simpl Dashboard.failures. rewrite IH. unfold Dashboard.scheduleReconnect. simpl.
  f_equal. lia.
Qed.

(** X16. On the dashboard page, the delay before the k-th reconnect attempt
    in a row (k = 1, 2, ...) since the page was built or last connected is
    min(1000 × 2^k, 30000) milliseconds: the first retry waits 2000 ms, not
    the base delay of 1000, the delay never shrinks from one attempt to the
    next, and from the fifth attempt on it is the cap of 30000. *)
Theorem reconnect_delay_doubles_up_to_the_cap (c : Dashboard.t) (k : nat) :
  Dashboard.maxReconnectDelay c = 30000 ->
  let delay (j : nat) :=
    fst (Dashboard.scheduleReconnect (Dashboard.failures j (Dashboard.onopen c))) in
  delay k = Z.min (1000 * 2 ^ (Z.of_nat k + 1)) 30000 /\
  2000 <= delay k <= 30000 /\
  delay k <= delay (S k) /\
  ((4 <= k)%nat -> delay k = 30000).
Proof.
  intros Hmax delay.
  assert (Hd : forall j, delay j = Z.min (1000 * 2 ^ (Z.of_nat j + 1)) 30000).
  { intros j. subst delay. simpl. rewrite failures_after_onopen.
    unfold Dashboard.scheduleReconnect. simpl. by rewrite Hmax. }
  assert (Hpow : forall j, 2 <= 2 ^ (Z.of_nat j + 1)).
  { intros j. change 2 with (2 ^ 1) at 1. apply Z.pow_le_mono_r; lia. }
  rewrite !Hd. split; [done|]. split; [|split].
  - pose proof (Hpow k). lia.
  - assert (2 ^ (Z.of_nat k + 1) <= 2 ^ (Z.of_nat (S k) + 1))
      by (apply Z.pow_le_mono_r; lia).
    lia.
  - intros Hk. assert (2 ^ 5 <= 2 ^ (Z.of_nat k + 1)) by (apply Z.pow_le_mono_r; lia).
    change (2 ^ 5) with 32 in *. lia.
Qed.

Lemma reconnect_delay_doubles_up_to_the_cap_witness :
  fst (Dashboard.scheduleReconnect
         (Dashboard.failures 2 (Dashboard.onopen Dashboard.constructor)))
  = Z.min (1000 * 2 ^ (Z.of_nat 2 + 1)) 30000.
Proof.
  apply (reconnect_delay_doubles_up_to_the_cap Dashboard.constructor 2).
  reflexivity.
Defined.

(** X17. The security indicator of the page reads Clean only for the
    status CLEAN and Issues Found only for VULNERABILITIES_FOUND; every other
    document shows Unknown. In particular the NO_SCAN that the monitor
    stores for a reports directory without reports is shown as Unknown. *)
Theorem security_indicator_shows_unknown_for_no_scan
    (reports_dir : string) (entries : list report_file) (st : pipeline_status)
    (security : list (string * json)) :
  (snd (Dashboard.security_indicator security) = "Clean"
   <-> assoc "status" security = Some (JStr "CLEAN")) /\
  (snd (Dashboard.security_indicator security) = "Issues Found"
   <-> assoc "status" security = Some (JStr "VULNERABILITIES_FOUND")) /\
  (filter (fun f => glob_match (file_name f)) entries = [] ->
   Dashboard.security_indicator
     (security_status (update_security_status reports_dir (Some entries) st))
   = ("status-indicator status-unknown", "Unknown")).
Proof.
  split; [|split].
  - unfold Dashboard.security_indicator.
    destruct (assoc "status" security) as [[| | |s| |]|]; simpl; try (split; done).
    destruct (String.eqb_spec s "CLEAN") as [->|Hne]; simpl; [done|].
    destruct (String.eqb s "VULNERABILITIES_FOUND"); simpl; split; try done; congruence.
  - unfold Dashboard.security_indicator.
    destruct (assoc "status" security) as [[| | |s| |]|]; simpl; try (split; done).
    destruct (String.eqb_spec s "CLEAN") as [->|Hne]; simpl; [split; done|].
    destruct (String.eqb_spec s "VULNERABILITIES_FOUND") as [->|Hne2]; simpl;
      split; try done; congruence.
  - intros Hnone. unfold update_security_status. rewrite Hnone. reflexivity.
Qed.

Lemma security_indicator_shows_unknown_for_no_scan_witness :
  Dashboard.security_indicator
    (security_status (update_security_status "docs/security-reports/combined"
                        (Some [mk_report "README.md" 5 None]) initial_status))
  = ("status-indicator status-unknown", "Unknown").
Proof.
  apply (security_indicator_shows_unknown_for_no_scan "docs/security-reports/combined"
           [mk_report "README.md" 5 None] initial_status []).
  reflexivity.
Defined.

(** ** More on durations *)

Lemma replace_Z_app (a b : string) : replace_Z (a +:+ b) = replace_Z a +:+ replace_Z b.
Proof.
  induction a as [|c a IH]; simpl; [done|].
  destruct (Ascii.eqb c "Z"); simpl; by rewrite IH.
Qed.

Lemma replace_Z_idempotent (s : string) : replace_Z (replace_Z s) = replace_Z s.
Proof.
  induction s as [|c s IH]; [done|]. cbn [replace_Z].
  destruct (Ascii.eqb c "Z") eqn:E.
  - by rewrite replace_Z_app, IH.
  - cbn [replace_Z]. by rewrite E, IH.
Qed.

(** X18. A trailing [Z] and a trailing [+00:00] are the same to the
    duration: whatever the parser, writing either timestamp with [+00:00]
    in place of its [Z]s gives the same result. *)
Theorem duration_reads_Z_as_utc_offset
    (fromisoformat : string -> option datetime) (s e : string) :
  _calculate_duration fromisoformat (Some (replace_Z s)) (Some (replace_Z e))
    = _calculate_duration fromisoformat (Some s) (Some e) /\
  _calculate_duration fromisoformat (Some (s +:+ "Z")) (Some (e +:+ "Z"))
    = _calculate_duration fromisoformat (Some (s +:+ "+00:00")) (Some (e +:+ "+00:00")).
Proof.
  split.
  - unfold _calculate_duration. by rewrite !replace_Z_idempotent.
  - unfold _calculate_duration. by rewrite !replace_Z_app.
Qed.

Lemma datetime_sub_swap (a b : datetime) :
  match datetime_sub a b, datetime_sub b a with
  | inl x, inl y => y = - x
  | inr _, inr _ => True
  | _, _ => False
  end.
Proof.
  unfold datetime_sub.
  destruct (utcoffset_us a), (utcoffset_us b); try done; lia.
Qed.

(** X19. Swapping the two timestamps negates the duration, whatever the
    parser; so a duration is never negative both ways round, and it is 0
    both ways round when either timestamp is missing or unparseable or the
    two cannot be subtracted. *)
Theorem duration_is_antisymmetric
    (fromisoformat : string -> option datetime) (a b : option string) :
  _calculate_duration fromisoformat b a = - _calculate_duration fromisoformat a b.
Proof.
  unfold _calculate_duration.
  destruct a as [s|], b as [e|]; try done.
  - destruct (fromisoformat (replace_Z s)) as [ds|], (fromisoformat (replace_Z e)) as [de|];
      try done.
    pose proof (datetime_sub_swap de ds) as H.
    destruct (datetime_sub de ds), (datetime_sub ds de); try done.
    subst. unfold int_total_seconds. by rewrite Z.quot_opp_l.
  - by destruct (fromisoformat (replace_Z s)).
  - by destruct (fromisoformat (replace_Z e)).
Qed.

(** X20. When one timestamp carries a UTC offset (or a [Z]) and the other
    none, the two cannot be subtracted and the duration is 0, however far
    apart they are. *)
Theorem duration_of_mixed_timestamps_is_zero
    (fromisoformat : string -> option datetime) (a b : option string)
    (da db : datetime) :
  parse_timestamp fromisoformat a = Some da ->
  parse_timestamp fromisoformat b = Some db ->
  is_None (utcoffset_us da) <> is_None (utcoffset_us db) ->
  _calculate_duration fromisoformat a b = 0.
Proof.
  intros Ha Hb Hmix. rewrite (calculate_duration_parsed _ _ _ _ _ Ha Hb).
  unfold datetime_sub. by destruct (utcoffset_us da), (utcoffset_us db).
Qed.

Lemma duration_of_mixed_timestamps_is_zero_witness :
  _calculate_duration fromisoformat_seconds
    (Some "2024-01-01T00:00:00Z") (Some "2024-01-01T00:05:00") = 0.
Proof.
  apply (duration_of_mixed_timestamps_is_zero fromisoformat_seconds
           (Some "2024-01-01T00:00:00Z") (Some "2024-01-01T00:05:00")
           (mk_datetime 63839664000000000 (Some 0))
           (mk_datetime 63839664300000000 None)).
  - vm_compute. reflexivity.
  - vm_compute. reflexivity.
  - vm_compute. discriminate.
Defined.

(** ** Configuration *)

Lemma split_on_length (sep : ascii) (s : string) :
  length (split_on sep s) = S (count_char sep s).
Proof.
  induction s as [|c s IH]; [done|]. simpl.
  destruct (Ascii.eqb c sep); simpl; [by rewrite IH|].
  destruct (split_on sep s); simpl in *; lia.
Qed.

(** X21. The monitor polls GitHub only when the token is set and not empty
    and GITHUB_REPOSITORY contains exactly one slash. With the repository
    variable unset, or without a slash, or with two, both fetches are
    skipped; the two parts around the slash are not checked, so [owner/]
    counts as configured. *)
Theorem configured_iff_token_and_one_slash (GITHUB_TOKEN GITHUB_REPOSITORY : option string) :
  configured (init_config GITHUB_TOKEN GITHUB_REPOSITORY) = true <->
  truthy GITHUB_TOKEN = true /\ count_char "/" (default "" GITHUB_REPOSITORY) = 1%nat.
Proof.
  unfold configured, init_config. simpl.
  rewrite andb_true_iff, Nat.eqb_eq, split_on_length. split; intros [? ?]; split; (done || lia).
Qed.
